(** * pyscan-pro: the analysis engine of [pyscanpro/pyscan.py]

    A shallow embedding of the scanner: file discovery, the line counter,
    the syntax validator, the [ast.NodeVisitor] that collects bound and used
    names, the per-file analyzer and the scan loop of [main].

    Conventions.
    - A Python [str] is a Rocq [string] holding its UTF-8 encoding.
    - A Python [set] of names is a [gset string]; the order in which a
      [for] loop enumerates a set is not fixed by the language: it depends
      on the run and on the order in which the members were added, so it is
      an oracle of the run ([set_iter]) applied to the sequence of the
      additions.
    - The standard library calls whose result depends on the machine
      ([os.walk], [open], [py_compile.compile], [ast.parse],
      [dir(__builtins__)]) are fields of a [world] record, and so is the
      recursion limit of the interpreter, as the set of the trees on which
      the recursive visitor exceeds it ([recursion_exceeded]).
    - The scanner's functions run in the monad [M]: a computation yields
      the events it produced (calls of the scanner's functions, [print]
      calls) and a value or the exception that ended it.
    - [main] is modelled from the path that [get_project_path] returned;
      [get_project_path] itself reads a [console] (the line typed, or the
      end of the input, and [os.path.exists]), and [program] puts the two
      together. *)

From Stdlib Require Import ZArith Ascii String.
From Stdlib.Strings Require Byte.
From stdpp Require Import gmap strings list pretty.

(** ** Python values the scanner prints or stores in a diagnostic *)

Inductive pyval :=
| PyNone
| PyInt (z : Z)
| PyStr (s : string).

(** ** The syntax tree of the [ast] module *)

Inductive expr_context := Load | Store | Del.

(** [ast.alias(name, asname)] *)
Record alias := mk_alias { alias_name : string; alias_asname : option string }.

(** One constructor per node class, fields in the order of [_fields]
    (attributes that hold no child node and that the scanner never reads
    are left out).  A list field lists the nodes it holds: the [None]
    entries of [kw_defaults] are skipped by [generic_visit] and left out.
    [Other cls children] stands for every remaining node class ([If],
    [For], [BinOp], [Pass], ...): the visitor has no handler for them, so
    all that matters are their child nodes, in field order. *)
#[warnings="-register-all"]
Inductive node :=
| Module (body : list node)
| FunctionDef (name : string) (args : node) (body decorator_list : list node)
              (returns : option node)
| AsyncFunctionDef (name : string) (args : node) (body decorator_list : list node)
                   (returns : option node)
| ClassDef (name : string) (bases keywords body decorator_list : list node)
| Return (value : option node)
| Assign (targets : list node) (value : node)
| Import (names : list alias)
| ImportFrom (module : option string) (names : list alias) (level : Z)
| Expr (value : node)
| Call (func : node) (args keywords : list node)
| Attribute (value : node) (attr : string) (ctx : expr_context)
| Constant (value : pyval)
| Name (id : string) (ctx : expr_context)
| arguments (posonlyargs args : list node) (vararg : option node)
            (kwonlyargs kw_defaults : list node) (kwarg : option node)
            (defaults : list node)
| arg (arg_name : string) (annotation : option node)
| keyword (arg_name : option string) (value : node)
| Other (cls : string) (children : list node).

(** ** [str] methods used by the scanner *)

(** [s.split(sep)] for a one-character separator: never empty. *)
Fixpoint split (sep : ascii) (s : string) : list string :=
  match s with
  | EmptyString => [EmptyString]
  | String c s' =>
      if Ascii.eqb c sep then EmptyString :: split sep s'
      else match split sep s' with
           | [] => [String c EmptyString]
           | w :: ws => String c w :: ws
           end
  end.

(** [s.startswith(p)] *)
Definition startswith (s p : string) : bool := String.prefix p s.

(** [s.endswith(p)] *)
Definition endswith (s p : string) : bool :=
  let n := String.length s in
  let k := String.length p in
  (k <=? n)%nat && String.eqb (String.substring (n - k) k s) p.

(** ** The visitor of [find_undefined_names] *)

(** The two sets the nested [Analyzer] class closes over.  [used_log] is
    the sequence of the [used.add] calls so far: the members of a set do
    not fix the order in which the interpreter enumerates it, the sequence
    of the additions (and the run) does. *)
Record names := mk_names {
  defined : gset string;
  used : gset string;
  used_log : list string
}.

Definition add_defined (x : string) (st : names) : names :=
  {| defined := {[x]} ∪ defined st; used := used st; used_log := used_log st |}.

Definition add_used (x : string) (st : names) : names :=
  {| defined := defined st; used := {[x]} ∪ used st;
     used_log := used_log st ++ [x] |}.

Definition no_names : names := {| defined := ∅; used := ∅; used_log := [] |}.

(** The loop of [visit_Assign]: only targets that are a bare [Name]. *)
Definition assign_targets (targets : list node) (st : names) : names :=
  fold_left (fun st t => match t with
                         | Name id _ => add_defined id st
                         | _ => st
                         end) targets st.

(** [name.split(".")[0]]; the list [split] returns is never empty. *)
Definition first_segment (name : string) : string :=
  hd EmptyString (split "." name).

(** The loop of [visit_Import]: the first dotted segment of [n.name]. *)
Definition import_names (l : list alias) (st : names) : names :=
  fold_left (fun st n => add_defined (first_segment (alias_name n)) st) l st.

(** The loop of [visit_ImportFrom]. *)
Definition importfrom_names (l : list alias) (st : names) : names :=
  fold_left (fun st n => add_defined (alias_name n) st) l st.

(** [Analyzer().visit(node)]: dispatch on the node class; a class without
    handler gets [generic_visit], which visits the child nodes in field
    order.  [visit_Import], [visit_ImportFrom] and [visit_Name] do not call
    [generic_visit]. *)
Fixpoint visit (n : node) (st : names) : names :=
  let visit_list :=
    fix visit_list (l : list node) (st : names) : names :=
      match l with
      | [] => st
      | x :: l' => visit_list l' (visit x st)
      end in
  let visit_opt := fun (o : option node) (st : names) =>
      match o with
      | Some x => visit x st
      | None => st
      end in
  match n with
  | FunctionDef name a body decos returns =>
      let st := add_defined name st in
      visit_opt returns (visit_list decos (visit_list body (visit a st)))
  | Assign targets value =>
      let st := assign_targets targets st in
      visit value (visit_list targets st)
  | Import l => import_names l st
  | ImportFrom _ l _ => importfrom_names l st
  | Name id ctx =>
      match ctx with
      | Load => add_used id st
      | _ => st
      end
  | Module body => visit_list body st
  | AsyncFunctionDef _ a body decos returns =>
      visit_opt returns (visit_list decos (visit_list body (visit a st)))
  | ClassDef _ bases kws body decos =>
      visit_list decos (visit_list body (visit_list kws (visit_list bases st)))
  | Return value => visit_opt value st
  | Expr value => visit value st
  | Call func a kws => visit_list kws (visit_list a (visit func st))
  | Attribute value _ _ => visit value st
  | Constant _ => st
  | arguments posonly a vararg kwonly kw_defaults kwarg defaults =>
      visit_list defaults
        (visit_opt kwarg
           (visit_list kw_defaults
              (visit_list kwonly
                 (visit_opt vararg (visit_list a (visit_list posonly st))))))
  | arg _ annotation => visit_opt annotation st
  | keyword _ value => visit value st
  | Other _ children => visit_list children st
  end.

(** [ast.iter_child_nodes]: the child nodes, in field order. *)
Definition opt_node (o : option node) : list node :=
  match o with
  | Some x => [x]
  | None => []
  end.

Definition children (n : node) : list node :=
  match n with
  | Module body => body
  | FunctionDef _ a body decos returns
  | AsyncFunctionDef _ a body decos returns =>
      a :: body ++ decos ++ opt_node returns
  | ClassDef _ bases kws body decos => bases ++ kws ++ body ++ decos
  | Return value => opt_node value
  | Assign targets value => targets ++ [value]
  | Import _ | ImportFrom _ _ _ => []
  | Expr value => [value]
  | Call func a kws => func :: a ++ kws
  | Attribute value _ _ => [value]
  | Constant _ => []
  | Name _ _ => []
  | arguments posonly a vararg kwonly kw_defaults kwarg defaults =>
      posonly ++ a ++ opt_node vararg ++ kwonly ++ kw_defaults
        ++ opt_node kwarg ++ defaults
  | arg _ annotation => opt_node annotation
  | keyword _ value => [value]
  | Other _ l => l
  end.

(** What the handler of the node's class does before (or instead of)
    descending. *)
Definition handler (n : node) (st : names) : names :=
  match n with
  | FunctionDef name _ _ _ _ => add_defined name st
  | Assign targets _ => assign_targets targets st
  | Import l => import_names l st
  | ImportFrom _ l _ => importfrom_names l st
  | Name id Load => add_used id st
  | _ => st
  end.

Definition visit_list (l : list node) (st : names) : names :=
  fold_left (fun st x => visit x st) l st.

(** ** Text input: [open(path, "r", encoding="utf-8", errors="ignore")] *)

Definition byte_in (lo hi : N) (b : Byte.byte) : bool :=
  let n := Byte.to_N b in (lo <=? n)%N && (n <=? hi)%N.

Definition is_cont (b : Byte.byte) : bool := byte_in 128 191 b.

(** Length of the well-formed UTF-8 sequence at the head of [bs]; 0 when
    the first byte starts none. *)
Definition utf8_len (bs : list Byte.byte) : nat :=
  match bs with
  | [] => 0
  | b1 :: r =>
      let n1 := Byte.to_N b1 in
      if (n1 <? 128)%N then 1
      else if (n1 <? 194)%N then 0
      else if (n1 <? 224)%N then
        match r with
        | b2 :: _ => if is_cont b2 then 2 else 0
        | _ => 0
        end
      else if (n1 <? 240)%N then
        match r with
        | b2 :: b3 :: _ =>
            let lo := if (n1 =? 224)%N then 160%N else 128%N in
            let hi := if (n1 =? 237)%N then 159%N else 191%N in
            if byte_in lo hi b2 && is_cont b3 then 3 else 0
        | _ => 0
        end
      else if (n1 <? 245)%N then
        match r with
        | b2 :: b3 :: b4 :: _ =>
            let lo := if (n1 =? 240)%N then 144%N else 128%N in
            let hi := if (n1 =? 244)%N then 143%N else 191%N in
            if byte_in lo hi b2 && is_cont b3 && is_cont b4 then 4 else 0
        | _ => 0
        end
      else 0
  end.

(** The decoder with [errors="ignore"]: a byte that starts no well-formed
    sequence is dropped and decoding resumes at the next byte.  [pending]
    counts the bytes still to copy of the sequence being read. *)
Fixpoint decode_from (pending : nat) (bs : list Byte.byte) : string :=
  match bs with
  | [] => EmptyString
  | b :: r =>
      match pending with
      | S k => String (ascii_of_byte b) (decode_from k r)
      | O =>
          match utf8_len bs with
          | O => decode_from 0 r
          | S k => String (ascii_of_byte b) (decode_from k r)
          end
      end
  end.

Definition decode_utf8_ignore (bs : list Byte.byte) : string := decode_from 0 bs.

Definition LF : ascii := ascii_of_nat 10.
Definition CR : ascii := ascii_of_nat 13.

(** Universal newlines (the default [newline=None]): CR LF and a lone CR
    are read as LF. *)
Fixpoint translate_newlines (s : string) : string :=
  match s with
  | EmptyString => EmptyString
  | String c s' =>
      if Ascii.eqb c CR then
        match s' with
        | String c2 s'' =>
            if Ascii.eqb c2 LF then String LF (translate_newlines s'')
            else String LF (translate_newlines s')
        | EmptyString => String LF EmptyString
        end
      else String c (translate_newlines s')
  end.

(** [f.readlines()] on the text read: the lines, each with its newline. *)
Fixpoint readlines (s : string) : list string :=
  match s with
  | EmptyString => []
  | String c s' =>
      if Ascii.eqb c LF then String c EmptyString :: readlines s'
      else match readlines s' with
           | [] => [String c EmptyString]
           | l :: ls => String c l :: ls
           end
  end.

(** ** The machine the scan runs on *)

Inductive exn :=
| FileNotFoundError | PermissionError | OSError | AttributeError
| RecursionError | EOFError.

(** The exception that [PyCompileError.exc_value] holds: a [SyntaxError]
    (or a subclass) with its [lineno] and [msg], or an exception of another
    class, which has neither attribute. *)
Inductive exception_value :=
| SyntaxError (lineno : pyval) (msg : string)
| OtherError (cls : string).

Inductive compile_outcome :=
| Compiled
| PyCompileError (exc_value : exception_value)
| CompileRaised (e : exn).

Record world := mk_world {
  (** [os.walk(folder)]: the (root, dirs, files) triples, in walk order *)
  os_walk : string -> list (string * list string * list string);
  (** opening and reading a file: its bytes, or the exception raised *)
  open_read : string -> list Byte.byte + exn;
  (** [py_compile.compile(path, doraise=True)] *)
  py_compile : string -> compile_outcome;
  (** [ast.parse(code)]; [None] when it raises *)
  ast_parse : string -> option node;
  (** [dir(__builtins__)] *)
  dir_builtins : list string;
  (** [Analyzer().visit(tree)] exceeds the recursion limit of the
      interpreter: the visitor calls itself once per level of the tree, so
      this is the case of trees nested too deeply *)
  recursion_exceeded : node -> bool;
  (** the order in which a [for] loop of this run enumerates the set built
      by the given sequence of additions *)
  set_iter : list string -> list string
}.

(** An enumeration lists each member of the set once. *)
Definition iter_ok (w : world) : Prop :=
  forall log : list string,
    set_iter w log ≡ₚ elements (list_to_set log : gset string).

(** ** The monad: a trace of events and a value or an exception *)

Inductive func :=
| f_get_python_files | f_count_lines | f_check_syntax
| f_find_undefined_names | f_analyze_file.

Inductive event :=
| EvCall (f : func) (argument : string)
| EvPrint (args : list pyval).

Inductive outcome (A : Type) :=
| Ok (a : A)
| Raise (e : exn).
Arguments Ok {A} a.
Arguments Raise {A} e.

Definition M (A : Type) : Type := list event * outcome A.

Definition ret {A} (a : A) : M A := ([], Ok a).
Definition raise {A} (e : exn) : M A := ([], Raise e).
Definition emit (e : event) : M unit := ([e], Ok tt).

Definition bind {A B} (m : M A) (k : A -> M B) : M B :=
  match m with
  | (t1, Ok a) => let '(t2, r) := k a in (t1 ++ t2, r)
  | (t1, Raise e) => (t1, Raise e)
  end.

Notation "x <- m ;; k" := (bind m (fun x => k))
  (at level 100, m at next level, right associativity).
Notation "m ;;; k" := (bind m (fun _ => k))
  (at level 100, right associativity).

Definition trace {A} (m : M A) : list event := fst m.
Definition result {A} (m : M A) : outcome A := snd m.

(** A [for] loop that updates an accumulator. *)
Fixpoint for_each {A B} (l : list A) (acc : B) (body : B -> A -> M B) : M B :=
  match l with
  | [] => ret acc
  | x :: l' => acc' <- body acc x ;; for_each l' acc' body
  end.

(** [os.path.join(a, b)] on a POSIX system. *)
Definition path_join (a b : string) : string :=
  if startswith b "/" then b
  else if String.eqb a "" || endswith a "/" then a +:+ b
  else a +:+ "/" +:+ b.

(** ** The scanner's functions *)

(** The dictionaries [check_syntax] and [analyze_file] build. *)
Record Diagnostic := mk_Diagnostic {
  file : string;
  line : pyval;
  message : string
}.

Definition get_python_files (w : world) (folder : string) : M (list string) :=
  emit (EvCall f_get_python_files folder) ;;;
  ret (fold_left
         (fun py_files '(root, _, files) =>
            fold_left (fun py_files f =>
                         if endswith f ".py" then py_files ++ [path_join root f]
                         else py_files)
                      files py_files)
         (os_walk w folder) []).

(** The bare [except] turns every failure into 0. *)
Definition count_lines (w : world) (file_path : string) : M nat :=
  emit (EvCall f_count_lines file_path) ;;;
  match open_read w file_path with
  | inl bs => ret (length (readlines (translate_newlines (decode_utf8_ignore bs))))
  | inr _ => ret 0
  end.

(** Only [PyCompileError] is caught; reading [err.lineno] of an exception
    that has no such attribute raises [AttributeError]. *)
Definition check_syntax (w : world) (file_path : string) : M (option Diagnostic) :=
  emit (EvCall f_check_syntax file_path) ;;;
  match py_compile w file_path with
  | Compiled => ret None
  | PyCompileError err =>
      match err with
      | SyntaxError lineno msg =>
          ret (Some {| file := file_path; line := lineno; message := msg |})
      | OtherError _ => raise AttributeError
      end
  | CompileRaised e => raise e
  end.

(** The loop over [used] that fills [undefined]. *)
Definition undefined_of (w : world) (st : names) : list string :=
  fold_left
    (fun undefined name =>
       if bool_decide (name ∉ defined st) && bool_decide (name ∉ dir_builtins w)
       then if negb (startswith name "__") then undefined ++ [name] else undefined
       else undefined)
    (set_iter w (used_log st)) [].

(** [open] is outside the [try]; a failing [ast.parse] gives the empty
    list; the traversal is outside the [try] too, and raises when the tree
    is nested deeper than the recursion limit allows. *)
Definition find_undefined_names (w : world) (file_path : string) : M (list string) :=
  emit (EvCall f_find_undefined_names file_path) ;;;
  match open_read w file_path with
  | inr e => raise e
  | inl bs =>
      let code := translate_newlines (decode_utf8_ignore bs) in
      match ast_parse w code with
      | None => ret []
      | Some tree =>
          if recursion_exceeded w tree then raise RecursionError
          else ret (undefined_of w (visit tree no_names))
      end
  end.

(** [repr] of a list of names; a name holds no quote, backslash or control
    character, so its [repr] only adds the quotes. *)
Definition repr_str (s : string) : string := "'" +:+ s +:+ "'".

Fixpoint join (sep : string) (l : list string) : string :=
  match l with
  | [] => ""
  | [x] => x
  | x :: l' => x +:+ sep +:+ join sep l'
  end.

Definition repr_list (l : list string) : string :=
  "[" +:+ join ", " (map repr_str l) +:+ "]".

(** The line of a file-level finding. *)
Definition unknown_line : pyval := PyStr "?".

Definition undefined_message (undefined : list string) : string :=
  "Undefined names: " +:+ repr_list undefined.

Definition analyze_file (w : world) (file_path : string) : M (list Diagnostic) :=
  emit (EvCall f_analyze_file file_path) ;;;
  syntax <- check_syntax w file_path ;;
  match syntax with
  | Some d => ret [d]
  | None =>
      undefined <- find_undefined_names w file_path ;;
      match undefined with
      | [] => ret []
      | _ :: _ =>
          ret [ {| file := file_path; line := unknown_line;
                   message := undefined_message undefined |} ]
      end
  end.

(** What Step 5 of [main] reports: the locals [total_files], [total_lines]
    and [errors] (the summary's file_count, total_lines and diagnostics). *)
Record ScanSummary := mk_ScanSummary {
  total_files : nat;
  total_lines : nat;
  errors : list Diagnostic
}.

Definition NL : string := String LF EmptyString.

Definition print (args : list pyval) : M unit := emit (EvPrint args).

Definition py_nat (n : nat) : pyval := PyInt (Z.of_nat n).

(** Step 6: the numbered issues. *)
Fixpoint print_issues (i : nat) (errs : list Diagnostic) : M unit :=
  match errs with
  | [] => ret tt
  | err :: rest =>
      print [PyStr ("Issue " +:+ pretty i)] ;;;
      print [PyStr "File   :"; PyStr (file err)] ;;;
      print [PyStr "Line   :"; line err] ;;;
      print [PyStr "Reason :"; PyStr (message err)] ;;;
      print [PyStr "----------------------------"] ;;;
      print_issues (S i) rest
  end.

(** [main], from the path that [get_project_path] returned.  Python's
    [main] returns nothing; the model returns what it reported: [None] on
    the early return, the summary otherwise. *)
Definition main (w : world) (project_path : string) : M (option ScanSummary) :=
  print [PyStr (NL +:+ "===== 🔍 SMART PROJECT INSPECTOR =====" +:+ NL)] ;;;
  print [PyStr (NL +:+ "📖 Scanning:"); PyStr project_path; PyStr NL] ;;;
  files <- get_python_files w project_path ;;
  match files with
  | [] => print [PyStr "❌ No Python files found."] ;;; ret None
  | _ :: _ =>
      let total_files := length files in
      total_lines <- for_each files 0
                       (fun total_lines f =>
                          n <- count_lines w f ;; ret (total_lines + n)) ;;
      errors <- for_each files []
                  (fun errors f =>
                     problems <- analyze_file w f ;; ret (errors ++ problems)) ;;
      print [PyStr "📂 Python Files :"; py_nat total_files] ;;;
      print [PyStr "📄 Total Lines  :"; py_nat total_lines] ;;;
      print [PyStr "🚨 Issues Found :"; py_nat (length errors)] ;;;
      print [] ;;;
      match errors with
      | _ :: _ =>
          print [PyStr ("===== ❌ ISSUE DETAILS =====" +:+ NL)] ;;;
          print_issues 1 errors
      | [] => print [PyStr "✅ No syntax or name errors. Project is clean!"]
      end ;;;
      print [PyStr (NL +:+ "===== ✔ Scan Complete =====" +:+ NL)] ;;;
      ret (Some {| total_files := total_files; total_lines := total_lines;
                   errors := errors |})
  end.

(** ** Sample trees and a sample machine *)

Module Fixture.

(** [dir(builtins)] of CPython 3.11. *)
Definition builtins : list string :=
  ["ArithmeticError"; "AssertionError"; "AttributeError"; "BaseException";
   "BaseExceptionGroup"; "BlockingIOError"; "BrokenPipeError";
   "BufferError"; "BytesWarning"; "ChildProcessError";
   "ConnectionAbortedError"; "ConnectionError"; "ConnectionRefusedError";
   "ConnectionResetError"; "DeprecationWarning"; "EOFError"; "Ellipsis";
   "EncodingWarning"; "EnvironmentError"; "Exception"; "ExceptionGroup";
   "False"; "FileExistsError"; "FileNotFoundError"; "FloatingPointError";
   "FutureWarning"; "GeneratorExit"; "IOError"; "ImportError";
   "ImportWarning"; "IndentationError"; "IndexError"; "InterruptedError";
   "IsADirectoryError"; "KeyError"; "KeyboardInterrupt"; "LookupError";
   "MemoryError"; "ModuleNotFoundError"; "NameError"; "None";
   "NotADirectoryError"; "NotImplemented"; "NotImplementedError";
   "OSError"; "OverflowError"; "PendingDeprecationWarning";
   "PermissionError"; "ProcessLookupError"; "RecursionError";
   "ReferenceError"; "ResourceWarning"; "RuntimeError"; "RuntimeWarning";
   "StopAsyncIteration"; "StopIteration"; "SyntaxError"; "SyntaxWarning";
   "SystemError"; "SystemExit"; "TabError"; "TimeoutError"; "True";
   "TypeError"; "UnboundLocalError"; "UnicodeDecodeError";
   "UnicodeEncodeError"; "UnicodeError"; "UnicodeTranslateError";
   "UnicodeWarning"; "UserWarning"; "ValueError"; "Warning";
   "ZeroDivisionError"; "__build_class__"; "__debug__"; "__doc__";
   "__import__"; "__loader__"; "__name__"; "__package__"; "__spec__";
   "abs"; "aiter"; "all"; "anext"; "any"; "ascii"; "bin"; "bool";
   "breakpoint"; "bytearray"; "bytes"; "callable"; "chr"; "classmethod";
   "compile"; "complex"; "copyright"; "credits"; "delattr"; "dict"; "dir";
   "divmod"; "enumerate"; "eval"; "exec"; "exit"; "filter"; "float";
   "format"; "frozenset"; "getattr"; "globals"; "hasattr"; "hash"; "help";
   "hex"; "id"; "input"; "int"; "isinstance"; "issubclass"; "iter"; "len";
   "license"; "list"; "locals"; "map"; "max"; "memoryview"; "min"; "next";
   "object"; "oct"; "open"; "ord"; "pow"; "print"; "property"; "quit";
   "range"; "repr"; "reversed"; "round"; "set"; "setattr"; "slice";
   "sorted"; "staticmethod"; "str"; "sum"; "super"; "tuple"; "type";
   "vars"; "zip"].

Definition no_args : node := arguments [] [] None [] [] None [].

(** {[
class Foo:
    pass
obj = Foo()
]} *)
Definition class_src : string :=
  "class Foo:" +:+ NL +:+ "    pass" +:+ NL +:+ "obj = Foo()" +:+ NL.
Definition class_tree : node :=
  Module [ClassDef "Foo" [] [] [Other "Pass" []] [];
          Assign [Name "obj" Store] (Call (Name "Foo" Load) [] [])].

(** {[
def twice(x):
    return x + x
print(twice(2))
]} *)
Definition param_src : string :=
  "def twice(x):" +:+ NL +:+ "    return x + x" +:+ NL +:+ "print(twice(2))" +:+ NL.
Definition twice_args : node := arguments [] [arg "x" None] None [] [] None [].
Definition twice_body : list node :=
  [Return (Some (Other "BinOp" [Name "x" Load; Other "Add" []; Name "x" Load]))].
Definition param_tree : node :=
  Module [FunctionDef "twice" twice_args twice_body [] None;
          Expr (Call (Name "print" Load)
                     [Call (Name "twice" Load) [Constant (PyInt 2)] []] [])].

(** {[
import os.path as osp
from sys import argv as args
print(osp.join(args[0], "x"))
]} *)
Definition alias_src : string :=
  "import os.path as osp" +:+ NL +:+ "from sys import argv as args" +:+ NL
  +:+ "print(osp.join(args[0], " +:+ String (ascii_of_nat 34) "x"
  +:+ String (ascii_of_nat 34) "))" +:+ NL.
Definition alias_tree : node :=
  Module [Import [mk_alias "os.path" (Some "osp")];
          ImportFrom (Some "sys") [mk_alias "argv" (Some "args")] 0;
          Expr (Call (Name "print" Load)
                  [Call (Attribute (Name "osp" Load) "join" Load)
                        [Other "Subscript" [Name "args" Load; Constant (PyInt 0)];
                         Constant (PyStr "x")] []] [])].

(** {[
import os as __os
__os.getcwd()
]} *)
Definition dunder_src : string :=
  "import os as __os" +:+ NL +:+ "__os.getcwd()" +:+ NL.
Definition dunder_tree : node :=
  Module [Import [mk_alias "os" (Some "__os")];
          Expr (Call (Attribute (Name "__os" Load) "getcwd" Load) [] [])].

(** A file that does not compile: [def f(x:]. *)
Definition broken_src : string := "def f(x:" +:+ NL.

(** A file whose first line declares an encoding that does not exist;
    CPython reports the error at line 0. *)
Definition badcoding_src : string :=
  "# -*- coding: foobar -*-" +:+ NL +:+ "x = 1" +:+ NL.

Definition sources : list (string * string) :=
  [("proj/a.py", class_src);
   ("proj/pkg/b.py", broken_src);
   ("proj/pkg/c.py", param_src);
   ("proj/pkg/d.py", alias_src);
   ("proj/pkg/e.py", dunder_src);
   ("proj/pkg/f.py", badcoding_src)].

Definition trees : list (string * node) :=
  [(class_src, class_tree); (param_src, param_tree);
   (alias_src, alias_tree); (dunder_src, dunder_tree)].

Fixpoint assoc {A} (k : string) (l : list (string * A)) : option A :=
  match l with
  | [] => None
  | (k', v) :: l' => if String.eqb k k' then Some v else assoc k l'
  end.

(** The levels of a tree, counted up to [fuel]. *)
Fixpoint levels (fuel : nat) (n : node) : nat :=
  match fuel with
  | 0 => 0
  | S fuel' => S (foldr (fun c m => Nat.max (levels fuel' c) m) 0 (children n))
  end.

(** An interpreter with the default limit of 1000 frames: the traversal
    takes two frames for each level of the tree ([visit] and
    [generic_visit] or the handler), below the four of the calls that lead
    to it. *)
Definition too_deep (tree : node) : bool :=
  (1000 <? 4 + 2 * levels 1000 tree)%nat.

(** A project of six files in two directories, and an empty directory. *)
Definition machine : world := {|
  os_walk := fun folder =>
    if String.eqb folder "proj" then
      [("proj", ["pkg"; "__pycache__"], ["a.py"; "README.md"; "notes.py.bak"]);
       ("proj/pkg", [], ["b.py"; "c.py"; "d.py"; "e.py"; "f.py"]);
       ("proj/__pycache__", [], ["a.cpython-311.pyc"])]
    else if String.eqb folder "empty" then [("empty", [], [])]
    else [];
  open_read := fun path =>
    match assoc path sources with
    | Some src => inl (String.list_byte_of_string src)
    | None => inr FileNotFoundError
    end;
  py_compile := fun path =>
    if String.eqb path "proj/pkg/b.py" then
      PyCompileError (SyntaxError (PyInt 1) "'(' was never closed")
    else if String.eqb path "proj/pkg/f.py" then
      PyCompileError (SyntaxError (PyInt 0) "unknown encoding: foobar")
    else match assoc path sources with
         | Some _ => Compiled
         | None => CompileRaised FileNotFoundError
         end;
  ast_parse := fun code => assoc code trees;
  dir_builtins := builtins;
  recursion_exceeded := too_deep;
  set_iter := fun log => elements (list_to_set log : gset string)
|}.

(** The same machine in a run that enumerates sets in the opposite order. *)
Definition machine_rev : world := {|
  os_walk := os_walk machine;
  open_read := open_read machine;
  py_compile := py_compile machine;
  ast_parse := ast_parse machine;
  dir_builtins := dir_builtins machine;
  recursion_exceeded := recursion_exceeded machine;
  set_iter := fun log => rev (elements (list_to_set log : gset string))
|}.

(** The same machine in a run that enumerates a set in the order in which
    its members were added. *)
Definition machine_fifo : world := {|
  os_walk := os_walk machine;
  open_read := open_read machine;
  py_compile := py_compile machine;
  ast_parse := ast_parse machine;
  dir_builtins := dir_builtins machine;
  recursion_exceeded := recursion_exceeded machine;
  set_iter := fun log => remove_dups log
|}.

(** A file that is not valid UTF-8: [a], the byte FF, a newline, the
    three bytes of the euro sign, a newline, [b], and the first two bytes
    of a euro sign that the end of the file cuts. *)
Definition raw_bytes : list Byte.byte :=
  [Byte.x61; Byte.xff; Byte.x0a; Byte.xe2; Byte.x82; Byte.xac; Byte.x0a;
   Byte.x62; Byte.xe2; Byte.x82].

(** A machine whose only readable file is [raw.py]. *)
Definition raw_machine : world := {|
  os_walk := fun _ => [("raw", [], ["raw.py"])];
  open_read := fun path =>
    if String.eqb path "raw/raw.py" then inl raw_bytes else inr PermissionError;
  py_compile := fun _ => CompileRaised PermissionError;
  ast_parse := fun _ => None;
  dir_builtins := builtins;
  recursion_exceeded := too_deep;
  set_iter := fun log => elements (list_to_set log : gset string)
|}.

(** A file that is one long sum, [total = 1 + 1 + ... + 1] with [n]
    additions: the compiler and the parser accept it, and the tree nests
    one [BinOp] in the left operand of the next. *)
Fixpoint sum_src (n : nat) : string :=
  match n with
  | 0 => "1"
  | S n' => sum_src n' +:+ " + 1"
  end.

Fixpoint sum_tree (n : nat) : node :=
  match n with
  | 0 => Constant (PyInt 1)
  | S n' => Other "BinOp" [sum_tree n'; Other "Add" []; Constant (PyInt 1)]
  end.

Definition deep_src : string := "total = " +:+ sum_src 600 +:+ NL.

Definition deep_tree : node :=
  Module [Assign [Name "total" Store] (sum_tree 600)].

(** A project whose only file is the long sum. *)
Definition deep_machine : world := {|
  os_walk := fun folder =>
    if String.eqb folder "deep" then [("deep", [], ["sum.py"])] else [];
  open_read := fun path =>
    if String.eqb path "deep/sum.py" then inl (String.list_byte_of_string deep_src)
    else inr FileNotFoundError;
  py_compile := fun path =>
    if String.eqb path "deep/sum.py" then Compiled
    else CompileRaised FileNotFoundError;
  ast_parse := fun code =>
    if String.eqb code deep_src then Some deep_tree else assoc code trees;
  dir_builtins := builtins;
  recursion_exceeded := too_deep;
  set_iter := fun log => elements (list_to_set log : gset string)
|}.

End Fixture.

(** ** Notions the properties are stated with *)

(** [subnode m n]: [m] is [n] or a descendant of [n]. *)
Inductive subnode : node -> node -> Prop :=
| subnode_refl n : subnode n n
| subnode_child m c n : c ∈ children n -> subnode m c -> subnode m n.

(** Node [n] is a binding site of [x] for the visitor. *)
Definition binds_name (n : node) (x : string) : Prop :=
  match n with
  | FunctionDef name _ _ _ _ => x = name
  | Assign targets _ => exists ctx, Name x ctx ∈ targets
  | Import l => exists a, a ∈ l /\ x = first_segment (alias_name a)
  | ImportFrom _ l _ => exists a, a ∈ l /\ x = alias_name a
  | _ => False
  end.

(** [x] is a formal parameter in the [arguments] node [a]. *)
Definition is_param (x : string) (a : node) : Prop :=
  match a with
  | arguments posonly args vararg kwonly _ kwarg _ =>
      exists annotation,
        arg x annotation ∈ posonly ++ args ++ opt_node vararg ++ kwonly
                           ++ opt_node kwarg
  | _ => False
  end.

(** The value of a computation that did not raise. *)
Definition value_or {A} (d : A) (o : outcome A) : A :=
  match o with
  | Ok a => a
  | Raise _ => d
  end.

(** [s] occurs in [t]. *)
Definition occurs_in (s t : string) : Prop :=
  exists pre post, t = pre +:+ s +:+ post.

(** Two machines that hold the same directory snapshot and run the same
    interpreter (same compiler, parser, built-ins and recursion limit); the
    order in which sets are enumerated may differ. *)
Definition same_snapshot (w1 w2 : world) : Prop :=
  (forall folder, os_walk w1 folder = os_walk w2 folder) /\
  (forall path, open_read w1 path = open_read w2 path) /\
  (forall path, py_compile w1 path = py_compile w2 path) /\
  (forall code, ast_parse w1 code = ast_parse w2 code) /\
  dir_builtins w1 = dir_builtins w2 /\
  (forall tree, recursion_exceeded w1 tree = recursion_exceeded w2 tree).

(** Equal diagnostics, up to the order of the names in an undefined-names
    message. *)
Definition same_diag (d1 d2 : Diagnostic) : Prop :=
  d1 = d2 \/
  exists l1 l2, l1 ≡ₚ l2 /\ file d1 = file d2 /\
    line d1 = unknown_line /\ line d2 = unknown_line /\
    message d1 = undefined_message l1 /\ message d2 = undefined_message l2.

Definition same_summary (s1 s2 : ScanSummary) : Prop :=
  total_files s1 = total_files s2 /\ total_lines s1 = total_lines s2 /\
  Forall2 same_diag (errors s1) (errors s2).

Definition same_result (r1 r2 : outcome (option ScanSummary)) : Prop :=
  match r1, r2 with
  | Ok (Some s1), Ok (Some s2) => same_summary s1 s2
  | Ok None, Ok None => True
  | Raise e1, Raise e2 => e1 = e2
  | _, _ => False
  end.

(** The use set holds the names that were added to it. *)
Definition log_ok (st : names) : Prop := used st = list_to_set (used_log st).

(** Two states hold the same names, whatever the order in which the uses
    were added. *)
Definition same_names (a b : names) : Prop :=
  defined a = defined b /\ used a = used b /\
  (list_to_set (used_log a) : gset string) = list_to_set (used_log b).

(** The test of the loop that fills [undefined], as one boolean. *)
Definition reportable (w : world) (st : names) (name : string) : bool :=
  bool_decide (name ∉ defined st) && bool_decide (name ∉ dir_builtins w)
  && negb (startswith name "__").

(** The name a target of [visit_Assign] adds, if any. *)
Definition target_name (t : node) : option string :=
  match t with
  | Name id _ => Some id
  | _ => None
  end.

(** The diagnostics of a file whose syntax check found nothing. *)
Definition name_findings (path : string) (undefined : list string) : list Diagnostic :=
  match undefined with
  | [] => []
  | _ :: _ => [ {| file := path; line := unknown_line;
                   message := undefined_message undefined |} ]
  end.

(** [c in s] for a character. *)
Fixpoint has_char (c : ascii) (s : string) : bool :=
  match s with
  | EmptyString => false
  | String c' s' => Ascii.eqb c' c || has_char c s'
  end.

(** The files a scan of [folder] discovers, and the line count of one. *)
Definition discovered (w : world) (folder : string) : list string :=
  value_or [] (result (get_python_files w folder)).

Definition lines_of (w : world) (path : string) : nat :=
  value_or 0 (result (count_lines w path)).

(** The diagnostics of the files, in order; the first exception wins. *)
Fixpoint analyze_all (w : world) (files : list string) : outcome (list Diagnostic) :=
  match files with
  | [] => Ok []
  | f :: rest =>
      match result (analyze_file w f) with
      | Ok ds =>
          match analyze_all w rest with
          | Ok r => Ok (ds ++ r)
          | Raise e => Raise e
          end
      | Raise e => Raise e
      end
  end.

(** The names of a directory listing that end in [.py]. *)
Definition py_names (files : list string) : list string :=
  List.filter (fun f => endswith f ".py") files.

(** Outcomes of the analysis of one file in two runs that agree. *)
Definition same_findings (r1 r2 : outcome (list Diagnostic)) : Prop :=
  match r1, r2 with
  | Ok ds1, Ok ds2 => Forall2 same_diag ds1 ds2
  | Raise e1, Raise e2 => e1 = e2
  | _, _ => False
  end.

(** The number of occurrences of a character. *)
Fixpoint count_char (c : ascii) (s : string) : nat :=
  match s with
  | EmptyString => 0
  | String c' s' => (if Ascii.eqb c' c then 1 else 0) + count_char c s'
  end.

(** The text is not empty and its last character is not a newline. *)
Fixpoint ends_open (s : string) : bool :=
  match s with
  | EmptyString => false
  | String c s' =>
      match s' with
      | EmptyString => negb (Ascii.eqb c LF)
      | String _ _ => ends_open s'
      end
  end.

(** A newline-delimited record: characters other than the newline, then
    the newline; or, for the end of a text that does not end in a newline,
    at least one such character. *)
Definition is_record (l : string) : Prop :=
  exists body, has_char LF body = false /\
    (l = body +:+ NL \/ (l = body /\ body <> "")).

(** The bytes below 128, which encode one ASCII character each. *)
Definition ascii_part (bs : list Byte.byte) : list Byte.byte :=
  List.filter (fun b => (Byte.to_N b <? 128)%N) bs.

(** A byte string made of well-formed UTF-8 sequences only. *)
Inductive well_formed : list Byte.byte -> Prop :=
| wf_nil : well_formed []
| wf_seq b seq rest :
    utf8_len (b :: seq ++ rest) = S (length seq) ->
    well_formed rest -> well_formed (b :: seq ++ rest).

(** ** The prompt for the project path: [get_project_path] *)

Definition QUOTE : ascii := ascii_of_nat 34.
Definition BACKSLASH : ascii := ascii_of_nat 92.

(** [str.isspace] on a character, by the bytes of its UTF-8 encoding: the
    ASCII characters 9 to 13, 28 to 31 and 32; U+0085 and U+00A0; U+1680,
    U+2000 to U+200A, U+2028, U+2029, U+202F, U+205F and U+3000. *)
Definition space1 (a : ascii) : bool :=
  let n := N_of_ascii a in
  ((9 <=? n) && (n <=? 13) || (28 <=? n) && (n <=? 32))%N.

Definition space2 (a b : ascii) : bool :=
  ((N_of_ascii a =? 194) && ((N_of_ascii b =? 133) || (N_of_ascii b =? 160)))%N.

Definition space3 (a b c : ascii) : bool :=
  let '(x, y, z) := (N_of_ascii a, N_of_ascii b, N_of_ascii c) in
  ((x =? 225) && (y =? 154) && (z =? 128)
   || (x =? 226) && (y =? 128)
      && ((128 <=? z) && (z <=? 138) || (z =? 168) || (z =? 169) || (z =? 175))
   || (x =? 226) && (y =? 129) && (z =? 159)
   || (x =? 227) && (y =? 128) && (z =? 128))%N.

(** Dropping the leading characters that satisfy one of three tests, on
    one, two or three bytes. *)
Fixpoint strip_left (t1 : ascii -> bool) (t2 : ascii -> ascii -> bool)
    (t3 : ascii -> ascii -> ascii -> bool) (s : string) : string :=
  match s with
  | EmptyString => EmptyString
  | String a r =>
      if t1 a then strip_left t1 t2 t3 r
      else match r with
           | EmptyString => s
           | String b r2 =>
               if t2 a b then strip_left t1 t2 t3 r2
               else match r2 with
                    | EmptyString => s
                    | String c r3 =>
                        if t3 a b c then strip_left t1 t2 t3 r3 else s
                    end
           end
  end.

Definition string_rev (s : string) : string :=
  string_of_list_ascii (rev (list_ascii_of_string s)).

(** [s.lstrip()], [s.rstrip()] and [s.strip()] *)
Definition lstrip (s : string) : string := strip_left space1 space2 space3 s.

Definition rstrip (s : string) : string :=
  string_rev (strip_left space1 (fun a b => space2 b a)
                         (fun a b c => space3 c b a) (string_rev s)).

Definition strip (s : string) : string := rstrip (lstrip s).

(** [s[1:-1]] *)
Definition slice_1_m1 (s : string) : string :=
  String.substring 1 (String.length s - 2) s.

(** [s.replace(old, new)] for one-character [old] and [new]. *)
Fixpoint replace (old new : ascii) (s : string) : string :=
  match s with
  | EmptyString => EmptyString
  | String c s' => String (if Ascii.eqb c old then new else c) (replace old new s')
  end.

(** What the user and the file system give [get_project_path]: the line
    typed at the prompt ([None] when the input is at its end, where
    [input] raises [EOFError]), and [os.path.exists]. *)
Record console := mk_console {
  typed : option string;
  path_exists : string -> bool
}.

(** The prompt of [input] besides the events of the scan. *)
Inductive console_event :=
| Prompt (text : string)
| Output (e : event).

(** A call returns, [exit()] ends the program, or an exception comes out. *)
Inductive ended (A : Type) :=
| Returned (a : A)
| SystemExit
| Raised (e : exn).
Arguments Returned {A} a.
Arguments SystemExit {A}.
Arguments Raised {A} e.

Definition get_project_path (c : console) : list console_event * ended string :=
  let asked := Prompt "📂 Enter project folder path: " in
  match typed c with
  | None => ([asked], Raised EOFError)
  | Some line =>
      let path := strip line in
      let path :=
        if startswith path (String QUOTE "") && endswith path (String QUOTE "")
        then slice_1_m1 path else path in
      let path := replace BACKSLASH "/" path in
      if path_exists c path then ([asked], Returned path)
      else ([asked; Output (EvPrint [PyStr (NL +:+ "❌ Path does not exist!")])],
            SystemExit)
  end.

(** [main] after the call of [get_project_path]: Step 2 to the end. *)
Definition scan (w : world) (project_path : string) : M (option ScanSummary) :=
  print [PyStr (NL +:+ "📖 Scanning:"); PyStr project_path; PyStr NL] ;;;
  files <- get_python_files w project_path ;;
  match files with
  | [] => print [PyStr "❌ No Python files found."] ;;; ret None
  | _ :: _ =>
      let total_files := length files in
      total_lines <- for_each files 0
                       (fun total_lines f =>
                          n <- count_lines w f ;; ret (total_lines + n)) ;;
      errors <- for_each files []
                  (fun errors f =>
                     problems <- analyze_file w f ;; ret (errors ++ problems)) ;;
      print [PyStr "📂 Python Files :"; py_nat total_files] ;;;
      print [PyStr "📄 Total Lines  :"; py_nat total_lines] ;;;
      print [PyStr "🚨 Issues Found :"; py_nat (length errors)] ;;;
      print [] ;;;
      match errors with
      | _ :: _ =>
          print [PyStr ("===== ❌ ISSUE DETAILS =====" +:+ NL)] ;;;
          print_issues 1 errors
      | [] => print [PyStr "✅ No syntax or name errors. Project is clean!"]
      end ;;;
      print [PyStr (NL +:+ "===== ✔ Scan Complete =====" +:+ NL)] ;;;
      ret (Some {| total_files := total_files; total_lines := total_lines;
                   errors := errors |})
  end.

(** The program, [main()] with its prompt: the banner, the prompt, and the
    scan when the path exists; an exception of the prompt ends it. *)
Definition program (w : world) (c : console)
  : list console_event * ended (outcome (option ScanSummary)) :=
  let banner :=
    Output (EvPrint [PyStr (NL +:+ "===== 🔍 SMART PROJECT INSPECTOR =====" +:+ NL)]) in
  match get_project_path c with
  | (t, Returned project_path) =>
      (banner :: t ++ map Output (trace (scan w project_path)),
       Returned (result (scan w project_path)))
  | (t, SystemExit) => (banner :: t, SystemExit)
  | (t, Raised e) => (banner :: t, Raised e)
  end.

(** The five lines that Step 6 prints for the diagnostic numbered [i]. *)
Definition issue_block (i : nat) (err : Diagnostic) : list event :=
  [EvPrint [PyStr ("Issue " +:+ pretty i)];
   EvPrint [PyStr "File   :"; PyStr (file err)];
   EvPrint [PyStr "Line   :"; line err];
   EvPrint [PyStr "Reason :"; PyStr (message err)];
   EvPrint [PyStr "----------------------------"]].

Definition func_eqb (f g : func) : bool :=
  match f, g with
  | f_get_python_files, f_get_python_files
  | f_count_lines, f_count_lines
  | f_check_syntax, f_check_syntax
  | f_find_undefined_names, f_find_undefined_names
  | f_analyze_file, f_analyze_file => true
  | _, _ => false
  end.

(** The arguments of the calls of [f] in a trace, in order. *)
Definition calls_of (f : func) (t : list event) : list string :=
  omap (fun e => match e with
                 | EvCall g x => if func_eqb g f then Some x else None
                 | EvPrint _ => None
                 end) t.

(** The events of the analysis loop of [main]: the files are analyzed in
    order until one raises. *)
Fixpoint analysis_trace (w : world) (files : list string) : list event :=
  match files with
  | [] => []
  | f :: rest =>
      trace (analyze_file w f)
      ++ match result (analyze_file w f) with
         | Ok _ => analysis_trace w rest
         | Raise _ => []
         end
  end.

Fixpoint issue_blocks (i : nat) (errs : list Diagnostic) : list event :=
  match errs with
  | [] => []
  | err :: rest => issue_block i err ++ issue_blocks (S i) rest
  end.

(** What Steps 5 and 6 of [main] print for given counts and diagnostics. *)
Definition report_events (n_files n_lines : nat) (errs : list Diagnostic)
  : list event :=
  [EvPrint [PyStr "📂 Python Files :"; py_nat n_files];
   EvPrint [PyStr "📄 Total Lines  :"; py_nat n_lines];
   EvPrint [PyStr "🚨 Issues Found :"; py_nat (length errs)];
   EvPrint []]
  ++ match errs with
     | [] => [EvPrint [PyStr "✅ No syntax or name errors. Project is clean!"]]
     | _ :: _ =>
         EvPrint [PyStr ("===== ❌ ISSUE DETAILS =====" +:+ NL)]
         :: issue_blocks 1 errs
     end
  ++ [EvPrint [PyStr (NL +:+ "===== ✔ Scan Complete =====" +:+ NL)]].

(** What a trace prints: the argument lists of its [print] calls. *)
Definition output (t : list event) : list (list pyval) :=
  omap (fun e => match e with
                 | EvPrint args => Some args
                 | EvCall _ _ => None
                 end) t.

(** The file compiles. *)
Definition compiles (w : world) (path : string) : bool :=
  match py_compile w path with
  | Compiled => true
  | _ => false
  end.

(** The five printed lines of the diagnostic numbered [i]. *)
Definition issue_lines (i : nat) (err : Diagnostic) : list (list pyval) :=
  [[PyStr ("Issue " +:+ pretty i)];
   [PyStr "File   :"; PyStr (file err)];
   [PyStr "Line   :"; line err];
   [PyStr "Reason :"; PyStr (message err)];
   [PyStr "----------------------------"]].

(** The events of the scan among the events of the program. *)
Definition scan_events (t : list console_event) : list event :=
  omap (fun e => match e with
                 | Output e => Some e
                 | Prompt _ => None
                 end) t.

(** * Properties *)

(** ** The [str], path and text functions on sample values *)

Example split_dotted : split "." "os.path.join" = ["os"; "path"; "join"].
Proof. reflexivity. Qed.

Example split_no_separator : split "." "os" = ["os"] /\ split "." "" = [""].
Proof. split; reflexivity. Qed.

Example endswith_samples :
  endswith "a.py" ".py" = true /\ endswith ".py" ".py" = true /\
  endswith "a.pyc" ".py" = false /\ endswith "a.PY" ".py" = false /\
  endswith "py" ".py" = false.
Proof. repeat split. Qed.

Example path_join_samples :
  path_join "proj" "a.py" = "proj/a.py" /\ path_join "proj/" "a.py" = "proj/a.py" /\
  path_join "" "a.py" = "a.py".
Proof. repeat split. Qed.

Example decode_samples :
  decode_utf8_ignore [Byte.xe2; Byte.x0a] = NL /\
  decode_utf8_ignore [Byte.xed; Byte.xa0; Byte.x80; Byte.x78] = "x" /\
  decode_utf8_ignore [Byte.xc0; Byte.x80; Byte.x41] = "A" /\
  decode_utf8_ignore [Byte.xf0; Byte.x9f; Byte.x98; Byte.x80]
  = String.string_of_list_byte [Byte.xf0; Byte.x9f; Byte.x98; Byte.x80].
Proof. repeat split. Qed.

(** [a CR b CR LF c LF LF d] has the five lines [a], [b], [c], the empty
    line and [d]. *)
Example readlines_sample :
  let cr := String CR "" in
  readlines (translate_newlines
               ("a" +:+ cr +:+ "b" +:+ cr +:+ NL +:+ "c" +:+ NL +:+ NL +:+ "d"))
  = ["a" +:+ NL; "b" +:+ NL; "c" +:+ NL; NL; "d"].
Proof. reflexivity. Qed.

(** ** The visitor *)

Lemma visit_list_app l1 l2 st :
  visit_list (l1 ++ l2) st = visit_list l2 (visit_list l1 st).
Proof. apply fold_left_app. Qed.

(** The visitor, one equation for all classes. *)
Lemma visit_unfold n st : visit n st = visit_list (children n) (handler n st).
Proof.
  destruct n; cbn [visit children handler opt_node];
    repeat match goal with
           | o : option node |- _ => destruct o
           | c : expr_context |- _ => destruct c
           end;
    cbn [opt_node]; unfold visit_list; cbn [fold_left];
    rewrite ?fold_left_app; reflexivity.
Qed.

(** Induction on a tree through its child nodes. *)
Lemma node_children_ind (P : node -> Prop) :
  (forall n, Forall P (children n) -> P n) -> forall n, P n.
Proof.
  intros H. fix IH 1. intros n. apply H.
  assert (Hl : forall l : list node, (forall x, P x) -> Forall P l)
    by (intros l Hx; induction l; constructor; auto).
  destruct n; cbn [children opt_node];
    repeat match goal with
           | o : option node |- _ => destruct o
           end;
    repeat first [ apply Forall_nil_2 | apply Forall_cons_2
                 | apply Forall_app_2 ];
    first [ apply IH
          | match goal with
            | |- Forall P ?l =>
                induction l; constructor; [apply IH | assumption]
            end ].
Qed.

Lemma visit_list_cons x l st : visit_list (x :: l) st = visit_list l (visit x st).
Proof. reflexivity. Qed.

Lemma subnode_trans a b c : subnode a b -> subnode b c -> subnode a c.
Proof.
  intros Hab Hbc. induction Hbc as [|m c n Hc _ IH]; [assumption|].
  eapply subnode_child; eauto.
Qed.

Lemma subnode_of_child c n : c ∈ children n -> subnode c n.
Proof. intros H. eapply subnode_child; [exact H | constructor]. Qed.

(** The three loops that add names to [defined] have one shape. *)
Section fold_names.
Context {A : Type} (key : A -> option string) (f : names -> A -> names).
Hypothesis f_key : forall st a,
  f st a = match key a with
           | Some x => add_defined x st
           | None => st
           end.

Lemma fold_names_used (l : list A) st : used (fold_left f l st) = used st.
Proof.
  revert st; induction l as [|a l IHl]; intros st; [reflexivity|].
  cbn [fold_left]. rewrite IHl, f_key. destruct (key a); reflexivity.
Qed.

Lemma fold_names_log (l : list A) st : used_log (fold_left f l st) = used_log st.
Proof.
  revert st; induction l as [|a l IHl]; intros st; [reflexivity|].
  cbn [fold_left]. rewrite IHl, f_key. destruct (key a); reflexivity.
Qed.

Lemma fold_names_defined (l : list A) st x :
  x ∈ defined (fold_left f l st)
  <-> x ∈ defined st \/ exists a, a ∈ l /\ key a = Some x.
Proof.
  revert st; induction l as [|a l IHl]; intros st; cbn [fold_left].
  - split; [auto|]. intros [H|(a & Ha & _)]; [exact H|]. inversion Ha.
  - rewrite IHl, f_key. split.
    + intros [H|(b & Hb & Hk)].
      * destruct (key a) as [y|] eqn:E; [|auto].
        cbn in H. apply elem_of_union in H as [H|H]; [|auto].
        apply elem_of_singleton in H. rewrite H.
        right. exists a. split; [left|assumption].
      * right. exists b. split; [right; assumption|assumption].
    + intros [H|(b & Hb & Hk)].
      * left. destruct (key a); [|assumption]. cbn.
        apply elem_of_union_r, H.
      * apply elem_of_cons in Hb as [Hb|Hb].
        -- left. rewrite <- Hb, Hk. cbn.
           apply elem_of_union_l, elem_of_singleton. reflexivity.
        -- right. eauto.
Qed.
End fold_names.

Lemma assign_targets_key st t :
  match t with
  | Name id _ => add_defined id st
  | _ => st
  end = match target_name t with
        | Some x => add_defined x st
        | None => st
        end.
Proof. destruct t; reflexivity. Qed.

Lemma handler_used n st x :
  x ∈ used (handler n st) <-> x ∈ used st \/ n = Name x Load.
Proof.
  assert (Hsame : forall m, used (handler m st) = used st ->
            (forall c, m <> Name x c) ->
            x ∈ used (handler m st) <-> x ∈ used st \/ m = Name x Load).
  { intros m -> Hm. split; [auto | intros [H|H]; [exact H | destruct (Hm _ H)]]. }
  destruct n; try (apply Hsame; [reflexivity | discriminate]).
  - apply Hsame; [|discriminate]. unfold handler, assign_targets.
    apply (fold_names_used target_name _ (fun st t => assign_targets_key st t)).
  - apply Hsame; [|discriminate]. unfold handler, import_names.
    apply (fold_names_used (fun a => Some (first_segment (alias_name a))) _
             (fun _ _ => eq_refl)).
  - apply Hsame; [|discriminate]. unfold handler, importfrom_names.
    apply (fold_names_used (fun a => Some (alias_name a)) _ (fun _ _ => eq_refl)).
  - destruct ctx; cbn.
    + rewrite elem_of_union, elem_of_singleton. split.
      * intros [->|H]; auto.
      * intros [H|H]; [auto | left; congruence].
    + split; [auto | intros [H|H]; [exact H | discriminate H]].
    + split; [auto | intros [H|H]; [exact H | discriminate H]].
Qed.

Lemma handler_defined n st x :
  x ∈ defined (handler n st) <-> x ∈ defined st \/ binds_name n x.
Proof.
  destruct n; cbn [handler binds_name]; try tauto.
  - unfold add_defined; cbn. rewrite elem_of_union, elem_of_singleton. tauto.
  - unfold assign_targets.
    rewrite (fold_names_defined target_name _ (fun st t => assign_targets_key st t)).
    apply or_iff_compat_l. split.
    + intros (t & Ht & Hk). destruct t; try discriminate Hk.
      cbn in Hk. injection Hk as ->. eauto.
    + intros (c & Hc). exists (Name x c). split; [assumption | reflexivity].
  - unfold import_names.
    rewrite (fold_names_defined (fun a => Some (first_segment (alias_name a))) _
               (fun _ _ => eq_refl)).
    apply or_iff_compat_l. split.
    + intros (a & Ha & Hk). injection Hk as <-. eauto.
    + intros (a & Ha & ->). eauto.
  - unfold importfrom_names.
    rewrite (fold_names_defined (fun a => Some (alias_name a)) _ (fun _ _ => eq_refl)).
    apply or_iff_compat_l. split.
    + intros (a & Ha & Hk). injection Hk as <-. eauto.
    + intros (a & Ha & ->). eauto.
  - destruct ctx; cbn; tauto.
Qed.

(** A load of [x] is collected wherever it stands in the tree, and nothing
    else is. *)
Lemma visit_used n : forall st x,
  x ∈ used (visit n st) <-> x ∈ used st \/ subnode (Name x Load) n.
Proof.
  induction n as [n IHn] using node_children_ind. intros st x.
  rewrite visit_unfold.
  assert (Hl : forall l, Forall (fun c => forall st x,
              x ∈ used (visit c st) <-> x ∈ used st \/ subnode (Name x Load) c) l ->
            forall st, x ∈ used (visit_list l st)
              <-> x ∈ used st \/ exists c, c ∈ l /\ subnode (Name x Load) c).
  { clear. induction 1 as [|c l Hc _ IHl]; intros st.
    - cbn. split; [auto|]. intros [H|(c & Hc & _)]; [exact H | inversion Hc].
    - rewrite visit_list_cons, IHl, Hc. split.
      + intros [[H|H]|(d & Hd & H)]; [auto | right..].
        * exists c. split; [left | exact H].
        * exists d. split; [right; exact Hd | exact H].
      + intros [H|(d & Hd & H)]; [auto|].
        apply elem_of_cons in Hd as [->|Hd]; [auto | right; eauto]. }
  rewrite (Hl _ IHn), handler_used. split.
  - intros [[H|H]|(c & Hc & H)]; [auto | right..].
    + rewrite H. constructor.
    + eapply subnode_child; eauto.
  - intros [H|H]; [auto|]. inversion H; subst; [auto | right; eauto].
Qed.

(** A name is in [defined] exactly when some node of the tree binds it. *)
Lemma visit_defined n : forall st x,
  x ∈ defined (visit n st)
  <-> x ∈ defined st \/ exists m, subnode m n /\ binds_name m x.
Proof.
  induction n as [n IHn] using node_children_ind. intros st x.
  rewrite visit_unfold.
  assert (Hl : forall l, Forall (fun c => forall st x,
              x ∈ defined (visit c st)
              <-> x ∈ defined st \/ exists m, subnode m c /\ binds_name m x) l ->
            forall st, x ∈ defined (visit_list l st)
              <-> x ∈ defined st
                  \/ exists c m, c ∈ l /\ subnode m c /\ binds_name m x).
  { clear. induction 1 as [|c l Hc _ IHl]; intros st.
    - cbn. split; [auto|]. intros [H|(c & m & Hc & _)]; [exact H | inversion Hc].
    - rewrite visit_list_cons, IHl, Hc. split.
      + intros [[H|(m & Hm & H)]|(d & m & Hd & Hm & H)]; [auto | right..].
        * exists c, m. split; [left | auto].
        * exists d, m. split; [right; exact Hd | auto].
      + intros [H|(d & m & Hd & Hm & H)]; [auto|].
        apply elem_of_cons in Hd as [->|Hd]; [eauto | right; eauto 6]. }
  rewrite (Hl _ IHn), handler_defined. split.
  - intros [[H|H]|(c & m & Hc & Hm & H)]; [auto | right..].
    + exists n. split; [constructor | exact H].
    + exists m. split; [eapply subnode_child; eauto | exact H].
  - intros [H|(m & Hm & H)]; [auto|].
    inversion Hm; subst; [auto | right; eauto 6].
Qed.

(** The sequence of additions to the use set holds the same names as the
    set, also from a state where the two differ. *)
Lemma handler_used_log n st x :
  x ∈ used_log (handler n st) <-> x ∈ used_log st \/ n = Name x Load.
Proof.
  assert (Hsame : forall m, used_log (handler m st) = used_log st ->
            (forall c, m <> Name x c) ->
            x ∈ used_log (handler m st) <-> x ∈ used_log st \/ m = Name x Load).
  { intros m -> Hm. split; [auto | intros [H|H]; [exact H | destruct (Hm _ H)]]. }
  destruct n; try (apply Hsame; [reflexivity | discriminate]).
  - apply Hsame; [|discriminate]. unfold handler, assign_targets.
    apply (fold_names_log target_name _ (fun st t => assign_targets_key st t)).
  - apply Hsame; [|discriminate]. unfold handler, import_names.
    apply (fold_names_log (fun a => Some (first_segment (alias_name a))) _
             (fun _ _ => eq_refl)).
  - apply Hsame; [|discriminate]. unfold handler, importfrom_names.
    apply (fold_names_log (fun a => Some (alias_name a)) _ (fun _ _ => eq_refl)).
  - destruct ctx; cbn.
    + rewrite elem_of_app, list_elem_of_singleton. split.
      * intros [H | ->]; auto.
      * intros [H|H]; [auto | right; congruence].
    + split; [auto | intros [H|H]; [exact H | discriminate H]].
    + split; [auto | intros [H|H]; [exact H | discriminate H]].
Qed.

Lemma visit_used_log n : forall st x,
  x ∈ used_log (visit n st) <-> x ∈ used_log st \/ subnode (Name x Load) n.
Proof.
  induction n as [n IHn] using node_children_ind. intros st x.
  rewrite visit_unfold.
  assert (Hl : forall l, Forall (fun c => forall st x,
              x ∈ used_log (visit c st)
              <-> x ∈ used_log st \/ subnode (Name x Load) c) l ->
            forall st, x ∈ used_log (visit_list l st)
              <-> x ∈ used_log st \/ exists c, c ∈ l /\ subnode (Name x Load) c).
  { clear. induction 1 as [|c l Hc _ IHl]; intros st.
    - cbn. split; [auto|]. intros [H|(c & Hc & _)]; [exact H | inversion Hc].
    - rewrite visit_list_cons, IHl, Hc. split.
      + intros [[H|H]|(d & Hd & H)]; [auto | right..].
        * exists c. split; [left | exact H].
        * exists d. split; [right; exact Hd | exact H].
      + intros [H|(d & Hd & H)]; [auto|].
        apply elem_of_cons in Hd as [->|Hd]; [auto | right; eauto]. }
  rewrite (Hl _ IHn), handler_used_log. split.
  - intros [[H|H]|(c & Hc & H)]; [auto | right..].
    + rewrite H. constructor.
    + eapply subnode_child; eauto.
  - intros [H|H]; [auto|]. inversion H; subst; [auto | right; eauto].
Qed.

(** The visitor keeps the use set and the sequence of its additions in
    step. *)
Lemma handler_log_ok n st : log_ok st -> log_ok (handler n st).
Proof.
  unfold log_ok. intros H.
  assert (Hsame : forall st', used st' = used st -> used_log st' = used_log st ->
            used st' = list_to_set (used_log st'))
    by (intros st' -> ->; exact H).
  destruct n; try exact H; cbn [handler].
  - unfold assign_targets. apply Hsame.
    + apply (fold_names_used target_name _ (fun st t => assign_targets_key st t)).
    + apply (fold_names_log target_name _ (fun st t => assign_targets_key st t)).
  - unfold import_names. apply Hsame.
    + apply (fold_names_used (fun a => Some (first_segment (alias_name a))) _
               (fun _ _ => eq_refl)).
    + apply (fold_names_log (fun a => Some (first_segment (alias_name a))) _
               (fun _ _ => eq_refl)).
  - unfold importfrom_names. apply Hsame.
    + apply (fold_names_used (fun a => Some (alias_name a)) _ (fun _ _ => eq_refl)).
    + apply (fold_names_log (fun a => Some (alias_name a)) _ (fun _ _ => eq_refl)).
  - destruct ctx; try exact H. cbn. rewrite H, list_to_set_app_L.
    cbn. rewrite (right_id_L ∅ (∪)). apply (comm_L (∪)).
Qed.

Lemma visit_log_ok n : forall st, log_ok st -> log_ok (visit n st).
Proof.
  induction n as [n IHn] using node_children_ind. intros st Hst.
  rewrite visit_unfold. apply (handler_log_ok n) in Hst.
  revert Hst. generalize (handler n st).
  induction IHn as [|c l Hc _ IHl]; intros st' Hst'; [exact Hst'|].
  rewrite visit_list_cons. apply IHl, Hc, Hst'.
Qed.

Lemma log_ok_tree tree : log_ok (visit tree no_names).
Proof. apply visit_log_ok. reflexivity. Qed.

(** ** The loop that fills [undefined] *)

Lemma fold_append_filter {A} (p : A -> bool) (l : list A) (acc : list A) :
  fold_left (fun acc x => if p x then acc ++ [x] else acc) l acc
  = acc ++ List.filter p l.
Proof.
  revert acc; induction l as [|x l IHl]; intros acc; cbn [fold_left List.filter].
  - symmetry. apply app_nil_r.
  - rewrite IHl. destruct (p x); [|reflexivity].
    rewrite <- app_assoc. reflexivity.
Qed.

Lemma undefined_of_filter w st :
  undefined_of w st = List.filter (reportable w st) (set_iter w (used_log st)).
Proof.
  unfold undefined_of.
  etransitivity; [|apply (fold_append_filter (reportable w st) _ [])].
  assert (Hstep : forall acc x,
    (if bool_decide (x ∉ defined st) && bool_decide (x ∉ dir_builtins w)
     then if negb (startswith x "__") then acc ++ [x] else acc
     else acc)
    = if reportable w st x then acc ++ [x] else acc).
  { intros acc x. unfold reportable.
    destruct (bool_decide _ && bool_decide _); [|reflexivity].
    destruct (negb _); reflexivity. }
  assert (Hfold : forall l acc,
    fold_left (fun undefined name =>
       if bool_decide (name ∉ defined st) && bool_decide (name ∉ dir_builtins w)
       then if negb (startswith name "__") then undefined ++ [name] else undefined
       else undefined) l acc
    = fold_left (fun acc x => if reportable w st x then acc ++ [x] else acc) l acc).
  { induction l as [|x l IHl]; intros acc; [reflexivity|].
    cbn [fold_left]. rewrite IHl, Hstep. reflexivity. }
  apply Hfold.
Qed.

Lemma reportable_true w st x :
  reportable w st x = true
  <-> (x ∉ defined st) /\ (x ∉ dir_builtins w) /\ startswith x "__" = false.
Proof.
  unfold reportable.
  rewrite !andb_true_iff, !bool_decide_eq_true, negb_true_iff. tauto.
Qed.

Lemma elem_of_undefined_of w st x :
  iter_ok w -> log_ok st ->
  x ∈ undefined_of w st
  <-> (x ∈ used st) /\ (x ∉ defined st) /\ (x ∉ dir_builtins w)
      /\ startswith x "__" = false.
Proof.
  intros Hw Hst. rewrite undefined_of_filter, list_elem_of_In, filter_In.
  rewrite <- list_elem_of_In, (Hw (used_log st)), elem_of_elements, <- Hst.
  rewrite reportable_true. tauto.
Qed.

Lemma NoDup_undefined_of w st : iter_ok w -> NoDup (undefined_of w st).
Proof.
  intros Hw. rewrite undefined_of_filter.
  apply NoDup_ListNoDup, List.NoDup_filter, NoDup_ListNoDup.
  rewrite (Hw (used_log st)). apply NoDup_elements.
Qed.

Lemma filter_Permutation {A} (p : A -> bool) (l1 l2 : list A) :
  l1 ≡ₚ l2 -> List.filter p l1 ≡ₚ List.filter p l2.
Proof.
  induction 1 as [|x l1 l2 _ IH|x y l|l1 l2 l3 _ IH1 _ IH2]; cbn.
  - reflexivity.
  - destruct (p x); [constructor|]; exact IH.
  - destruct (p x), (p y); try reflexivity. constructor.
  - etransitivity; eassumption.
Qed.

(** Two runs on the same snapshot find the same names, in some order. *)
Lemma undefined_of_Permutation w1 w2 st :
  iter_ok w1 -> iter_ok w2 -> dir_builtins w1 = dir_builtins w2 ->
  undefined_of w1 st ≡ₚ undefined_of w2 st.
Proof.
  intros H1 H2 Hb. rewrite !undefined_of_filter.
  replace (reportable w2 st) with (reportable w1 st)
    by (unfold reportable; rewrite Hb; reflexivity).
  apply filter_Permutation. rewrite (H1 _), (H2 _). reflexivity.
Qed.

(** ** The message of an undefined-names diagnostic *)

Lemma string_app_cons c (a b : string) : String c a +:+ b = String c (a +:+ b).
Proof. reflexivity. Qed.

Lemma string_app_assoc (a b c : string) : (a +:+ b) +:+ c = a +:+ (b +:+ c).
Proof.
  induction a as [|x a IHa]; [reflexivity|].
  rewrite !string_app_cons, IHa. reflexivity.
Qed.

Lemma string_app_nil_r (a : string) : a +:+ "" = a.
Proof.
  induction a as [|x a IHa]; [reflexivity|].
  rewrite string_app_cons, IHa. reflexivity.
Qed.

Lemma occurs_in_refl s : occurs_in s s.
Proof. exists "", "". cbn. symmetry. apply string_app_nil_r. Qed.

Lemma occurs_in_app_l s t u : occurs_in s t -> occurs_in s (u +:+ t).
Proof.
  intros (pre & post & ->). exists (u +:+ pre), post.
  symmetry. apply string_app_assoc.
Qed.

Lemma occurs_in_app_r s t u : occurs_in s t -> occurs_in s (t +:+ u).
Proof.
  intros (pre & post & ->). exists pre, (post +:+ u).
  rewrite !string_app_assoc. reflexivity.
Qed.

Lemma occurs_in_join sep (l : list string) s :
  s ∈ l -> occurs_in s (join sep l).
Proof.
  induction l as [|x l IHl]; intros Hs; [inversion Hs|].
  apply elem_of_cons in Hs as [->|Hs].
  - destruct l; [apply occurs_in_refl|]. cbn [join].
    apply occurs_in_app_r, occurs_in_refl.
  - destruct l as [|y l]; [inversion Hs|].
    change (join sep (x :: y :: l)) with (x +:+ sep +:+ join sep (y :: l)).
    apply occurs_in_app_l, occurs_in_app_l, IHl, Hs.
Qed.

(** Every name of the list is in the message, between quotes. *)
Lemma undefined_message_lists (l : list string) x :
  x ∈ l -> occurs_in (repr_str x) (undefined_message l).
Proof.
  intros Hx. unfold undefined_message, repr_list.
  apply occurs_in_app_l, occurs_in_app_l, occurs_in_app_r, occurs_in_join.
  apply list_elem_of_fmap. exists x. split; [reflexivity | exact Hx].
Qed.

(** ** The two analyses of a file *)

Lemma check_syntax_eq w path :
  check_syntax w path
  = ([EvCall f_check_syntax path],
     match py_compile w path with
     | Compiled => Ok None
     | PyCompileError (SyntaxError lineno msg) =>
         Ok (Some {| file := path; line := lineno; message := msg |})
     | PyCompileError (OtherError _) => Raise AttributeError
     | CompileRaised e => Raise e
     end).
Proof.
  unfold check_syntax. destruct (py_compile w path) as [|[]|]; reflexivity.
Qed.

Lemma check_syntax_result w path :
  result (check_syntax w path)
  = match py_compile w path with
    | Compiled => Ok None
    | PyCompileError (SyntaxError lineno msg) =>
        Ok (Some {| file := path; line := lineno; message := msg |})
    | PyCompileError (OtherError _) => Raise AttributeError
    | CompileRaised e => Raise e
    end.
Proof. rewrite check_syntax_eq. reflexivity. Qed.

Lemma find_undefined_names_eq w path :
  find_undefined_names w path
  = ([EvCall f_find_undefined_names path],
     match open_read w path with
     | inr e => Raise e
     | inl bs =>
         match ast_parse w (translate_newlines (decode_utf8_ignore bs)) with
         | None => Ok []
         | Some tree =>
             if recursion_exceeded w tree then Raise RecursionError
             else Ok (undefined_of w (visit tree no_names))
         end
     end).
Proof.
  unfold find_undefined_names. destruct (open_read w path); [|reflexivity].
  destruct (ast_parse w _) as [tree|]; [|reflexivity].
  destruct (recursion_exceeded w tree); reflexivity.
Qed.

Lemma find_undefined_names_result w path :
  result (find_undefined_names w path)
  = match open_read w path with
    | inr e => Raise e
    | inl bs =>
        match ast_parse w (translate_newlines (decode_utf8_ignore bs)) with
        | None => Ok []
        | Some tree =>
            if recursion_exceeded w tree then Raise RecursionError
            else Ok (undefined_of w (visit tree no_names))
        end
    end.
Proof. rewrite find_undefined_names_eq. reflexivity. Qed.

Lemma analyze_file_eq w path :
  analyze_file w path
  = match result (check_syntax w path) with
    | Ok (Some d) => ([EvCall f_analyze_file path; EvCall f_check_syntax path], Ok [d])
    | Ok None =>
        ([EvCall f_analyze_file path; EvCall f_check_syntax path;
          EvCall f_find_undefined_names path],
         match result (find_undefined_names w path) with
         | Ok undefined => Ok (name_findings path undefined)
         | Raise e => Raise e
         end)
    | Raise e => ([EvCall f_analyze_file path; EvCall f_check_syntax path], Raise e)
    end.
Proof.
  unfold analyze_file. rewrite check_syntax_eq, find_undefined_names_eq.
  destruct (py_compile w path) as [|[]|]; try reflexivity.
  cbn. destruct (open_read w path); [|reflexivity].
  destruct (ast_parse w _) as [tree|]; [|reflexivity].
  destruct (recursion_exceeded w tree); [reflexivity|].
  destruct (undefined_of w _); reflexivity.
Qed.

(** ** Per-file analysis: claims C1, C2, C3 *)

(** A function definition binds its name, wherever it stands. *)
Lemma function_name_bound tree name a body decos returns st :
  subnode (FunctionDef name a body decos returns) tree ->
  name ∈ defined (visit tree st).
Proof.
  intros H. apply visit_defined. right. eexists. split; [exact H | reflexivity].
Qed.

(** The visitor has no handler for class definitions: none binds a name. *)
Lemma class_binds_nothing name bases kws body decos x :
  ~ binds_name (ClassDef name bases kws body decos) x.
Proof. intros []. Qed.

(** C1, on the file [class Foo: pass; obj = Foo()]: the class name [Foo] is
    not put in the binding set, and the file gets the diagnostic
    "Undefined names: ['Foo']" although [Foo] is defined by the class
    statement and only used after it.  The claim says that such a name is
    never reported. *)
Theorem C1_class_name_reported :
  let w := Fixture.machine in
  let st := visit Fixture.class_tree no_names in
  py_compile w "proj/a.py" = Compiled /\
  open_read w "proj/a.py" = inl (String.list_byte_of_string Fixture.class_src) /\
  ast_parse w Fixture.class_src = Some Fixture.class_tree /\
  subnode (ClassDef "Foo" [] [] [Other "Pass" []] []) Fixture.class_tree /\
  ("Foo" ∈ used st) /\ ("Foo" ∉ defined st) /\
  result (analyze_file w "proj/a.py")
  = Ok [ {| file := "proj/a.py"; line := PyStr "?";
            message := "Undefined names: ['Foo']" |} ].
Proof.
  cbv zeta. do 3 (split; [reflexivity|]).
  split; [apply subnode_of_child; left|].
  split; [apply (bool_decide_unpack _); vm_compute; exact I|].
  split; [apply (bool_decide_unpack _); vm_compute; exact I|].
  vm_compute. reflexivity.
Qed.

(** C2: when the syntax check yields a diagnostic, that diagnostic is the
    whole result and [find_undefined_names] is not called for the file;
    in every case the result has at most one diagnostic, which is the
    syntax diagnostic or the undefined-names diagnostic. *)
Theorem C2_short_circuit w path :
  (forall d, result (check_syntax w path) = Ok (Some d) ->
     result (analyze_file w path) = Ok [d] /\
     forall p, EvCall f_find_undefined_names p ∉ trace (analyze_file w path)) /\
  (forall ds, result (analyze_file w path) = Ok ds ->
     length ds <= 1 /\
     (ds = [] \/
      (exists d, ds = [d] /\ result (check_syntax w path) = Ok (Some d)) \/
      (exists undefined, ds = name_findings path undefined /\ undefined <> [] /\
         result (check_syntax w path) = Ok None /\
         result (find_undefined_names w path) = Ok undefined))).
Proof.
  rewrite analyze_file_eq.
  remember (result (check_syntax w path)) as rc eqn:Hrc.
  remember (result (find_undefined_names w path)) as rf eqn:Hrf.
  clear Hrc Hrf. split.
  - intros d ->. split; [reflexivity|]. intros p Hp. cbn in Hp.
    apply elem_of_cons in Hp as [Hp|Hp]; [discriminate Hp|].
    apply elem_of_cons in Hp as [Hp|Hp]; [discriminate Hp | inversion Hp].
  - intros ds. destruct rc as [[d|]|e]; cbn.
    + intros Hds. injection Hds as <-. split; [cbn; lia|]. right; left. eauto.
    + destruct rf as [undefined|e]; [|discriminate].
      intros Hds. injection Hds as <-. destruct undefined as [|x l]; cbn.
      * split; [lia | left; reflexivity].
      * split; [lia|]. right; right. exists (x :: l).
        repeat split. discriminate.
    + discriminate.
Qed.

Lemma C2_short_circuit_witness :
  result (analyze_file Fixture.machine "proj/pkg/b.py")
  = Ok [ {| file := "proj/pkg/b.py"; line := PyInt 1;
            message := "'(' was never closed" |} ] /\
  forall p, EvCall f_find_undefined_names p
            ∉ trace (analyze_file Fixture.machine "proj/pkg/b.py").
Proof.
  apply (proj1 (C2_short_circuit Fixture.machine "proj/pkg/b.py")).
  reflexivity.
Defined.

(** C3: on a file that compiles and parses, and whose tree the visitor
    walks within the recursion limit, the names reported are the used
    names that are neither bound nor built in and do not start with two
    underscores, each once; the file has no diagnostic exactly when there
    is no such name, and otherwise one diagnostic, with line "?" and a
    message in which every such name occurs between single quotes.  On a
    tree nested deeper than the limit the traversal, which stands outside
    the [try], raises [RecursionError] instead. *)
Theorem C3_undefined_names w path bs tree :
  iter_ok w ->
  py_compile w path = Compiled ->
  open_read w path = inl bs ->
  ast_parse w (translate_newlines (decode_utf8_ignore bs)) = Some tree ->
  recursion_exceeded w tree = false ->
  let st := visit tree no_names in
  exists undefined,
    result (find_undefined_names w path) = Ok undefined /\
    NoDup undefined /\
    (forall x, x ∈ undefined <->
       (x ∈ used st ∖ defined st) /\ (x ∉ dir_builtins w)
       /\ startswith x "__" = false) /\
    (result (analyze_file w path) = Ok [] <-> undefined = []) /\
    (undefined <> [] ->
       result (analyze_file w path)
       = Ok [ {| file := path; line := unknown_line;
                 message := undefined_message undefined |} ]) /\
    (forall x, x ∈ undefined ->
       occurs_in ("'" +:+ x +:+ "'") (undefined_message undefined)).
Proof.
  intros Hw Hc Ho Hp Hr st. exists (undefined_of w st).
  assert (Hf : result (find_undefined_names w path) = Ok (undefined_of w st)).
  { rewrite find_undefined_names_result, Ho, Hp, Hr. reflexivity. }
  assert (Ha : result (analyze_file w path)
               = Ok (name_findings path (undefined_of w st))).
  { rewrite analyze_file_eq, check_syntax_result, Hc, Hf. reflexivity. }
  split; [exact Hf|]. split; [apply NoDup_undefined_of, Hw|].
  split; [|split; [|split]].
  - intros x. rewrite elem_of_undefined_of by (exact Hw || apply log_ok_tree).
    rewrite elem_of_difference. tauto.
  - rewrite Ha. destruct (undefined_of w st); cbn.
    + tauto.
    + split; discriminate.
  - rewrite Ha. destruct (undefined_of w st); [congruence | reflexivity].
  - apply undefined_message_lists.
Qed.

Lemma iter_ok_machine : iter_ok Fixture.machine.
Proof. intros s. reflexivity. Defined.

Lemma C3_undefined_names_witness :
  exists undefined,
    result (find_undefined_names Fixture.machine "proj/pkg/d.py") = Ok undefined /\
    NoDup undefined /\
    (forall x, x ∈ undefined <->
       (x ∈ used (visit Fixture.alias_tree no_names)
            ∖ defined (visit Fixture.alias_tree no_names))
       /\ (x ∉ Fixture.builtins) /\ startswith x "__" = false) /\
    (result (analyze_file Fixture.machine "proj/pkg/d.py") = Ok []
     <-> undefined = []) /\
    (undefined <> [] ->
       result (analyze_file Fixture.machine "proj/pkg/d.py")
       = Ok [ {| file := "proj/pkg/d.py"; line := unknown_line;
                 message := undefined_message undefined |} ]) /\
    (forall x, x ∈ undefined ->
       occurs_in ("'" +:+ x +:+ "'") (undefined_message undefined)).
Proof.
  apply (C3_undefined_names Fixture.machine "proj/pkg/d.py"
           (String.list_byte_of_string Fixture.alias_src) Fixture.alias_tree).
  - exact iter_ok_machine.
  - reflexivity.
  - reflexivity.
  - vm_compute. reflexivity.
  - reflexivity.
Defined.

(** ** Imports and parameters: claims C9, C10 *)

Lemma first_segment_cons c s :
  first_segment (String c s)
  = if Ascii.eqb c "." then "" else String c (first_segment s).
Proof.
  unfold first_segment. cbn [split]. destruct (Ascii.eqb c "."); [reflexivity|].
  destruct (split "." s) eqn:E; [|reflexivity].
  destruct s; cbn in E; [discriminate E|].
  destruct (Ascii.eqb _ _); [discriminate E|]. destruct (split "." s); discriminate E.
Qed.

(** [import a.b.c] binds [a]: the first segment is what stands before the
    first dot. *)
Lemma first_segment_dotted (a b : string) :
  has_char "." a = false -> first_segment (a +:+ String "." b) = a.
Proof.
  induction a as [|c a IHa]; intros Ha.
  - reflexivity.
  - cbn in Ha. apply orb_false_iff in Ha as [Hc Ha].
    rewrite string_app_cons, first_segment_cons, Hc, IHa by exact Ha.
    reflexivity.
Qed.

Lemma first_segment_plain (a : string) :
  has_char "." a = false -> first_segment a = a.
Proof.
  induction a as [|c a IHa]; intros Ha.
  - reflexivity.
  - cbn in Ha. apply orb_false_iff in Ha as [Hc Ha].
    rewrite first_segment_cons, Hc, IHa by exact Ha. reflexivity.
Qed.

Lemma visit_Module body st : visit (Module body) st = visit_list body st.
Proof. apply visit_unfold. Qed.

(** No node of the tree binds [x] exactly when the visitor leaves [x] out
    of [defined]. *)
Lemma no_binder_iff tree x :
  (forall m, subnode m tree -> ~ binds_name m x)
  <-> x ∉ defined (visit tree no_names).
Proof.
  rewrite visit_defined. split.
  - intros H [Hx|(m & Hm & Hb)]; [inversion Hx | exact (H m Hm Hb)].
  - intros H m Hm Hb. apply H. right. eauto.
Qed.

Lemma no_binder_in_list (l : list node) x :
  x ∉ defined (visit_list l no_names) ->
  forall s m, s ∈ l -> subnode m s -> ~ binds_name m x.
Proof.
  rewrite <- visit_Module. intros H s m Hs Hm.
  apply (proj2 (no_binder_iff (Module l) x) H).
  eapply subnode_child; [exact Hs | exact Hm].
Qed.

(** A name that is read somewhere and bound nowhere is reported, unless
    it is built in or starts with two underscores. *)
Lemma unbound_use_reported w tree x :
  iter_ok w ->
  subnode (Name x Load) tree ->
  (forall m, subnode m tree -> ~ binds_name m x) ->
  (x ∈ used (visit tree no_names)) /\
  (x ∉ defined (visit tree no_names)) /\
  (x ∈ undefined_of w (visit tree no_names)
   <-> (x ∉ dir_builtins w) /\ startswith x "__" = false).
Proof.
  intros Hw Hload Hnb.
  assert (Hu : x ∈ used (visit tree no_names)) by (apply visit_used; auto).
  assert (Hd : x ∉ defined (visit tree no_names)) by (apply no_binder_iff, Hnb).
  split; [exact Hu|]. split; [exact Hd|].
  rewrite elem_of_undefined_of by (exact Hw || apply log_ok_tree). tauto.
Qed.

(** C9, the claim as stated fails: the file [import os as __os] followed by
    [__os.getcwd()] uses only the alias, the alias is not bound and is not a
    built-in, and yet it is not reported, because it starts with two
    underscores. *)
Lemma C9_dunder_alias_counterexample :
  let w := Fixture.machine in
  let st := visit Fixture.dunder_tree no_names in
  Fixture.dunder_tree
  = Module [Import [mk_alias "os" (Some "__os")];
            Expr (Call (Attribute (Name "__os" Load) "getcwd" Load) [] [])] /\
  ast_parse w Fixture.dunder_src = Some Fixture.dunder_tree /\
  ("__os" ∈ used st) /\ ("__os" ∉ defined st) /\ ("__os" ∉ dir_builtins w) /\
  result (find_undefined_names w "proj/pkg/e.py") = Ok [] /\
  result (analyze_file w "proj/pkg/e.py") = Ok [].
Proof.
  cbv zeta. do 2 (split; [reflexivity|]).
  split; [apply (bool_decide_unpack _); vm_compute; exact I|].
  split; [apply (bool_decide_unpack _); vm_compute; exact I|].
  split; [apply (bool_decide_unpack _); vm_compute; exact I|].
  split; vm_compute; reflexivity.
Qed.

(** C9, amended: an import with an alias binds the original name ([bound]:
    the first dotted segment for [import], the imported name for
    [from ... import]) and never the alias.  So in a file that starts with
    such an import, where the alias differs from the bound name, is bound
    by no other statement and is read somewhere, the alias is used, is not
    bound, and is reported unless it is a built-in or starts with two
    underscores. *)
Theorem C9_alias_not_bound w (nm c bound : string) (module : option string)
    (level : Z) (imp : node) (rest : list node) :
  iter_ok w ->
  (imp = Import [mk_alias nm (Some c)] /\ bound = first_segment nm) \/
  (imp = ImportFrom module [mk_alias nm (Some c)] level /\ bound = nm) ->
  c <> bound ->
  (forall s m, s ∈ rest -> subnode m s -> ~ binds_name m c) ->
  (exists s, s ∈ rest /\ subnode (Name c Load) s) ->
  let st := visit (Module (imp :: rest)) no_names in
  (forall st0, defined (visit imp st0) = {[bound]} ∪ defined st0) /\
  (bound ∈ defined st) /\
  (c ∈ used st) /\ (c ∉ defined st) /\
  (c ∈ undefined_of w st <-> (c ∉ dir_builtins w) /\ startswith c "__" = false).
Proof.
  intros Hw Himp Hc Hrest (s & Hs & Hload) st.
  assert (Hd : forall st0, defined (visit imp st0) = {[bound]} ∪ defined st0).
  { intros st0. destruct Himp as [[-> ->]|[-> ->]]; reflexivity. }
  assert (Hb : forall x, binds_name imp x <-> x = bound).
  { intros x. destruct Himp as [[-> ->]|[-> ->]]; cbn; split.
    - intros (a & Ha & ->). apply list_elem_of_singleton in Ha as ->. reflexivity.
    - intros ->. eexists. split; [left | reflexivity].
    - intros (a & Ha & ->). apply list_elem_of_singleton in Ha as ->. reflexivity.
    - intros ->. eexists. split; [left | reflexivity]. }
  assert (Hchild : forall m, subnode m imp -> m = imp).
  { intros m Hm. inversion Hm as [|? ? ? Hin]; subst; [reflexivity|].
    destruct Himp as [[-> _]|[-> _]]; inversion Hin. }
  split; [exact Hd|]. split.
  - apply visit_defined. right. exists imp. split.
    + apply subnode_of_child. left.
    + apply Hb. reflexivity.
  - apply unbound_use_reported; [exact Hw | |].
    + eapply subnode_child; [right; exact Hs | exact Hload].
    + intros m Hm Hbm. inversion Hm as [|? c' ? Hin Hm']; subst.
      * exact Hbm.
      * cbn in Hin. apply elem_of_cons in Hin as [->|Hin].
        -- apply Hchild in Hm' as ->. apply Hb in Hbm. exact (Hc Hbm).
        -- exact (Hrest _ _ Hin Hm' Hbm).
Qed.

(** A load of [x] stands in the tree exactly when the visitor puts [x] in
    [used]. *)
Lemma load_iff tree x :
  subnode (Name x Load) tree <-> x ∈ used (visit tree no_names).
Proof.
  rewrite visit_used. split; [auto|]. intros [H|H]; [inversion H | exact H].
Qed.

Lemma C9_alias_not_bound_witness :
  let st := visit Fixture.alias_tree no_names in
  (forall st0, defined (visit (Import [mk_alias "os.path" (Some "osp")]) st0)
               = {["os"]} ∪ defined st0) /\
  ("os" ∈ defined st) /\
  ("osp" ∈ used st) /\ ("osp" ∉ defined st) /\
  ("osp" ∈ undefined_of Fixture.machine st
   <-> ("osp" ∉ Fixture.builtins) /\ startswith "osp" "__" = false).
Proof.
  apply (C9_alias_not_bound Fixture.machine "os.path" "osp" "os" None 0
           (Import [mk_alias "os.path" (Some "osp")])).
  - exact iter_ok_machine.
  - left. split; reflexivity.
  - discriminate.
  - apply no_binder_in_list. apply (bool_decide_unpack _). vm_compute. exact I.
  - eexists. split; [right; left|].
    apply load_iff. apply (bool_decide_unpack _). vm_compute. exact I.
Defined.

(** C10: a formal parameter is no binding site.  When [x] is a parameter
    of a function definition of the file, is read in the body of that
    function, and no node of the file binds it, then [x] is in the use set,
    is not in the binding set, and is reported unless it is a built-in or
    starts with two underscores. *)
Theorem C10_parameters_not_bound w tree fname a body decos returns x :
  iter_ok w ->
  subnode (FunctionDef fname a body decos returns) tree ->
  is_param x a ->
  (exists s, s ∈ body /\ subnode (Name x Load) s) ->
  (forall m, subnode m tree -> ~ binds_name m x) ->
  let st := visit tree no_names in
  (forall annotation st0,
     defined (visit (arg x annotation) st0)
     = defined (visit_list (opt_node annotation) st0)) /\
  (x ∈ used st) /\ (x ∉ defined st) /\
  (x ∈ undefined_of w st <-> (x ∉ dir_builtins w) /\ startswith x "__" = false).
Proof.
  intros Hw Hf _ (s & Hs & Hload) Hnb st. split.
  - intros annotation st0. rewrite visit_unfold. reflexivity.
  - apply unbound_use_reported; [exact Hw | | exact Hnb].
    eapply subnode_trans; [|exact Hf].
    eapply subnode_child; [|exact Hload].
    cbn. right. apply elem_of_app. left. exact Hs.
Qed.

Lemma C10_parameters_not_bound_witness :
  let st := visit Fixture.param_tree no_names in
  (forall annotation st0,
     defined (visit (arg "x" annotation) st0)
     = defined (visit_list (opt_node annotation) st0)) /\
  ("x" ∈ used st) /\ ("x" ∉ defined st) /\
  ("x" ∈ undefined_of Fixture.machine st
   <-> ("x" ∉ Fixture.builtins) /\ startswith "x" "__" = false).
Proof.
  apply (C10_parameters_not_bound Fixture.machine Fixture.param_tree
           "twice" Fixture.twice_args Fixture.twice_body [] None "x").
  - exact iter_ok_machine.
  - apply subnode_of_child. left.
  - exists None. left.
  - eexists. split; [left|].
    apply load_iff. apply (bool_decide_unpack _). vm_compute. exact I.
  - apply no_binder_iff. apply (bool_decide_unpack _). vm_compute. exact I.
Defined.

(** ** The scan: claims C4, C6, C8 *)

Lemma result_bind {A B} (m : M A) (k : A -> M B) :
  result (bind m k)
  = match result m with
    | Ok a => result (k a)
    | Raise e => Raise e
    end.
Proof.
  destruct m as [t [a|e]]; cbn; [|reflexivity]. destruct (k a); reflexivity.
Qed.

Lemma trace_bind {A B} (m : M A) (k : A -> M B) :
  trace (bind m k)
  = trace m ++ match result m with
               | Ok a => trace (k a)
               | Raise _ => []
               end.
Proof.
  destruct m as [t [a|e]]; cbn; [|symmetry; apply app_nil_r].
  destruct (k a); reflexivity.
Qed.

Lemma get_python_files_eq w folder :
  get_python_files w folder
  = ([EvCall f_get_python_files folder], Ok (discovered w folder)).
Proof. reflexivity. Qed.

Lemma count_lines_eq w path :
  count_lines w path = ([EvCall f_count_lines path], Ok (lines_of w path)).
Proof.
  unfold lines_of, count_lines. destruct (open_read w path); reflexivity.
Qed.

Lemma fold_select {A B} (p : A -> bool) (g : A -> B) (l : list A) (acc : list B) :
  fold_left (fun acc x => if p x then acc ++ [g x] else acc) l acc
  = acc ++ map g (List.filter p l).
Proof.
  revert acc; induction l as [|x l IHl]; intros acc; cbn [fold_left List.filter].
  - symmetry. apply app_nil_r.
  - rewrite IHl. destruct (p x); [|reflexivity].
    cbn [map]. rewrite <- app_assoc. reflexivity.
Qed.

(** Discovery keeps, directory by directory and in walk order, the names
    that end in [.py], joined to their directory. *)
Lemma discovered_eq w folder :
  discovered w folder
  = concat (map (fun '(root, _, files) => map (path_join root) (py_names files))
                (os_walk w folder)).
Proof.
  assert (Hfold : forall (l : list (string * list string * list string)) acc,
    fold_left
      (fun py_files '(root, _, files) =>
         fold_left (fun py_files f =>
                      if endswith f ".py" then py_files ++ [path_join root f]
                      else py_files)
                   files py_files)
      l acc
    = acc ++ concat (map (fun '(root, _, files) =>
                            map (path_join root) (py_names files)) l)).
  { induction l as [|[[root dirs] files] l IHl]; intros acc.
    - symmetry. apply app_nil_r.
    - cbn [fold_left map concat].
      rewrite IHl, (fold_select (fun f => endswith f ".py") (path_join root)).
      rewrite <- app_assoc. reflexivity. }
  exact (Hfold (os_walk w folder) []).
Qed.

Lemma length_discovered w folder :
  length (discovered w folder)
  = sum_list (map (fun '(_, _, files) => length (py_names files))
                  (os_walk w folder)).
Proof.
  rewrite discovered_eq.
  induction (os_walk w folder) as [|[[root dirs] files] l IHl]; [reflexivity|].
  cbn [map concat sum_list sum_list_with].
  rewrite length_app, length_map, IHl. reflexivity.
Qed.

Lemma count_loop w files acc :
  for_each files acc (fun total_lines f =>
                        n <- count_lines w f ;; ret (total_lines + n))
  = (map (EvCall f_count_lines) files,
     Ok (acc + sum_list (map (lines_of w) files))).
Proof.
  revert acc; induction files as [|f files IH]; intros acc.
  - cbn. rewrite Nat.add_0_r. reflexivity.
  - cbn [for_each]. rewrite count_lines_eq. cbn. rewrite IH. cbn.
    rewrite Nat.add_assoc. reflexivity.
Qed.

Lemma analyze_loop_result w files acc :
  result (for_each files acc (fun errors f =>
                                problems <- analyze_file w f ;;
                                ret (errors ++ problems)))
  = match analyze_all w files with
    | Ok r => Ok (acc ++ r)
    | Raise e => Raise e
    end.
Proof.
  revert acc; induction files as [|f files IH]; intros acc.
  - cbn. rewrite app_nil_r. reflexivity.
  - cbn [for_each analyze_all]. rewrite !result_bind.
    destruct (result (analyze_file w f)) as [ds|e]; [|reflexivity].
    cbn. rewrite IH. destruct (analyze_all w files); [|reflexivity].
    rewrite app_assoc. reflexivity.
Qed.

Lemma result_print {A} args (k : M A) : result (print args ;;; k) = result k.
Proof. rewrite result_bind. reflexivity. Qed.

Lemma print_issues_ok errs : forall i, result (print_issues i errs) = Ok tt.
Proof.
  induction errs as [|err errs IH]; intros i; [reflexivity|].
  cbn [print_issues]. rewrite !result_print. apply IH.
Qed.

(** What a scan returns. *)
Lemma main_result w project_path :
  result (main w project_path)
  = match discovered w project_path with
    | [] => Ok None
    | files =>
        match analyze_all w files with
        | Ok errs =>
            Ok (Some {| total_files := length files;
                        total_lines := sum_list (map (lines_of w) files);
                        errors := errs |})
        | Raise e => Raise e
        end
    end.
Proof.
  unfold main. rewrite !result_print, result_bind, get_python_files_eq.
  cbn [result snd]. destruct (discovered w project_path) as [|f files].
  - reflexivity.
  - rewrite result_bind, count_loop. cbn [result snd].
    rewrite result_bind, analyze_loop_result.
    destruct (analyze_all w (f :: files)) as [errs|e]; [|reflexivity].
    rewrite !result_print, result_bind. cbn [app Nat.add].
    destruct errs as [|err errs].
    + rewrite !result_print. reflexivity.
    + rewrite result_print, print_issues_ok, result_print. reflexivity.
Qed.

(** C4, the claim as stated fails: on a directory without Python files the
    scan returns no summary at all, so not the summary with zero counts
    and no diagnostics, and no line of the report is printed. *)
Lemma C4_no_summary_counterexample :
  result (get_python_files Fixture.machine "empty") = Ok [] /\
  result (main Fixture.machine "empty")
  <> Ok (Some {| total_files := 0; total_lines := 0; errors := [] |}) /\
  (forall n, EvPrint [PyStr "📂 Python Files :"; PyInt n]
             ∉ trace (main Fixture.machine "empty")).
Proof.
  split; [reflexivity|]. split; [discriminate|].
  intros n Hn. vm_compute in Hn.
  repeat (apply elem_of_cons in Hn as [Hn|Hn]; [discriminate Hn|]).
  inversion Hn.
Qed.

(** C4, amended: when discovery finds no file, the scan ends normally
    after printing the banner, the path and "No Python files found."; it
    returns no summary, counts no line and analyzes no file. *)
Theorem C4_no_files w project_path :
  result (get_python_files w project_path) = Ok [] ->
  main w project_path
  = ([EvPrint [PyStr (NL +:+ "===== 🔍 SMART PROJECT INSPECTOR =====" +:+ NL)];
      EvPrint [PyStr (NL +:+ "📖 Scanning:"); PyStr project_path; PyStr NL];
      EvCall f_get_python_files project_path;
      EvPrint [PyStr "❌ No Python files found."]],
     Ok None).
Proof.
  intros H. unfold main. rewrite get_python_files_eq in *.
  cbn in H. injection H as H. cbn. rewrite H. reflexivity.
Qed.

Lemma C4_no_files_witness :
  main Fixture.machine "empty"
  = ([EvPrint [PyStr (NL +:+ "===== 🔍 SMART PROJECT INSPECTOR =====" +:+ NL)];
      EvPrint [PyStr (NL +:+ "📖 Scanning:"); PyStr "empty"; PyStr NL];
      EvCall f_get_python_files "empty";
      EvPrint [PyStr "❌ No Python files found."]],
     Ok None).
Proof. apply (C4_no_files Fixture.machine "empty"). reflexivity. Defined.

(** C6: discovery returns, in walk order, the names ending in [.py] of
    every directory of the walk; a summary that the scan returns has as
    file count their number and as line total the sum of the line counts
    of all of them, each counted on its own, whatever the analysis of the
    file gives; and the scan returns a summary when there is at least one
    file and no analysis raises. *)
Theorem C6_summary_counts w project_path :
  let files := discovered w project_path in
  result (get_python_files w project_path) = Ok files /\
  files = concat (map (fun '(root, _, names) =>
                         map (path_join root) (py_names names))
                      (os_walk w project_path)) /\
  (forall s, result (main w project_path) = Ok (Some s) ->
     total_files s = length files /\
     total_files s = sum_list (map (fun '(_, _, names) => length (py_names names))
                                   (os_walk w project_path)) /\
     total_lines s
     = sum_list (map (fun f => value_or 0 (result (count_lines w f))) files)) /\
  (files <> [] ->
   (forall f, f ∈ files -> exists ds, result (analyze_file w f) = Ok ds) ->
   exists s, result (main w project_path) = Ok (Some s)).
Proof.
  intros files.
  assert (Hfiles : files = discovered w project_path) by reflexivity.
  assert (Hlen : length files
                 = sum_list (map (fun '(_, _, names) => length (py_names names))
                                 (os_walk w project_path)))
    by apply length_discovered.
  clearbody files.
  split; [rewrite Hfiles; reflexivity|].
  split; [rewrite Hfiles; apply discovered_eq|]. split.
  - intros s. rewrite main_result, <- Hfiles.
    destruct files as [|f l]; [discriminate|]. cbv zeta.
    destruct (analyze_all w (f :: l)); [|discriminate].
    intros H. injection H as <-. cbn [total_files total_lines].
    rewrite <- Hlen. auto.
  - intros Hne Hok. rewrite main_result, <- Hfiles.
    assert (Hall : exists errs, analyze_all w files = Ok errs).
    { clear Hne Hfiles Hlen. induction files as [|f l IHl]; [eexists; reflexivity|].
      destruct (Hok f) as [ds Hds]; [left|].
      destruct IHl as [r Hr]; [intros g Hg; apply Hok; right; exact Hg|].
      exists (ds ++ r). cbn [analyze_all]. rewrite Hds, Hr. reflexivity. }
    destruct Hall as [errs Herrs].
    destruct files; [congruence|]. cbv zeta. rewrite Herrs.
    eexists; reflexivity.
Qed.

Lemma C6_summary_counts_witness :
  exists s, result (main Fixture.machine "proj") = Ok (Some s) /\
    total_files s = 6 /\ total_lines s = 14 /\
    total_lines s
    = sum_list (map (fun f => value_or 0 (result (count_lines Fixture.machine f)))
                    (discovered Fixture.machine "proj")).
Proof.
  destruct (C6_summary_counts Fixture.machine "proj") as (_ & _ & Hsum & Hret).
  destruct Hret as [s Hs].
  - discriminate.
  - intros f Hf. vm_compute in Hf.
    repeat (apply elem_of_cons in Hf as [->|Hf]; [eexists; vm_compute; reflexivity|]).
    inversion Hf.
  - exists s. split; [exact Hs|]. destruct (Hsum s Hs) as (_ & _ & Hl).
    split; [|split; [|exact Hl]].
    + vm_compute in Hs. injection Hs as <-. reflexivity.
    + vm_compute in Hs. injection Hs as <-. reflexivity.
Defined.

Lemma same_diag_refl d : same_diag d d.
Proof. left. reflexivity. Qed.

Lemma name_findings_same path (l1 l2 : list string) :
  l1 ≡ₚ l2 ->
  Forall2 same_diag (name_findings path l1) (name_findings path l2).
Proof.
  intros Hp. destruct l1 as [|x1 l1], l2 as [|x2 l2].
  - constructor.
  - apply Permutation_nil_l in Hp. discriminate Hp.
  - apply Permutation_nil_r in Hp. discriminate Hp.
  - constructor; [|constructor]. right. exists (x1 :: l1), (x2 :: l2).
    repeat split. exact Hp.
Qed.

(** Two runs on the same snapshot give a file the same diagnostics, up to
    the order of the names, or fail on it with the same exception. *)
Lemma analyze_file_same w1 w2 path :
  same_snapshot w1 w2 -> iter_ok w1 -> iter_ok w2 ->
  same_findings (result (analyze_file w1 path)) (result (analyze_file w2 path)).
Proof.
  intros (_ & Ho & Hc & Hp & Hb & Hr) H1 H2.
  rewrite !analyze_file_eq, !check_syntax_result, !find_undefined_names_result.
  rewrite <- Hc, <- Ho.
  destruct (py_compile w1 path) as [|[lineno msg|cls]|e]; cbn.
  - destruct (open_read w1 path) as [bs|e]; cbn; [|reflexivity].
    rewrite <- Hp.
    destruct (ast_parse w1 _) as [tree|]; cbn; [|constructor].
    rewrite <- Hr.
    destruct (recursion_exceeded w1 tree); cbn; [reflexivity|].
    apply name_findings_same, undefined_of_Permutation; assumption.
  - constructor; [apply same_diag_refl | constructor].
  - reflexivity.
  - reflexivity.
Qed.

Lemma analyze_all_same w1 w2 files :
  same_snapshot w1 w2 -> iter_ok w1 -> iter_ok w2 ->
  same_findings (analyze_all w1 files) (analyze_all w2 files).
Proof.
  intros Hs H1 H2. induction files as [|f files IH]; [constructor|].
  cbn [analyze_all]. pose proof (analyze_file_same w1 w2 f Hs H1 H2) as Hf.
  destruct (result (analyze_file w1 f)), (result (analyze_file w2 f));
    cbn in Hf; try contradiction; [|exact Hf].
  destruct (analyze_all w1 files), (analyze_all w2 files);
    cbn in IH; try contradiction; [|exact IH].
  cbn. apply Forall2_app; assumption.
Qed.

Lemma discovered_same w1 w2 folder :
  same_snapshot w1 w2 -> discovered w1 folder = discovered w2 folder.
Proof. intros (Hw & _). rewrite !discovered_eq, Hw. reflexivity. Qed.

Lemma lines_of_same w1 w2 path :
  same_snapshot w1 w2 -> lines_of w1 path = lines_of w2 path.
Proof.
  intros (_ & Ho & _). unfold lines_of, count_lines. rewrite Ho. reflexivity.
Qed.

(** C8: two scans of the same directory snapshot by the same interpreter,
    whatever the order in which each enumerates its sets, end the same
    way; when they return a summary, the file counts are equal, the line
    totals are equal, and the diagnostics are equal one by one, an
    undefined-names diagnostic up to the order of the names in its
    message. *)
Theorem C8_scan_repeatable w1 w2 project_path :
  same_snapshot w1 w2 -> iter_ok w1 -> iter_ok w2 ->
  same_result (result (main w1 project_path)) (result (main w2 project_path)).
Proof.
  intros Hs H1 H2. rewrite !main_result.
  rewrite <- (discovered_same w1 w2 _ Hs).
  destruct (discovered w1 project_path) as [|f files]; [exact I|]. cbv zeta.
  pose proof (analyze_all_same w1 w2 (f :: files) Hs H1 H2) as Ha.
  destruct (analyze_all w1 (f :: files)), (analyze_all w2 (f :: files));
    cbn in Ha; try contradiction; [|exact Ha].
  unfold same_result, same_summary. cbn [total_files total_lines errors].
  split; [reflexivity|]. split; [|exact Ha].
  f_equal. apply map_ext. intros g. apply lines_of_same, Hs.
Qed.

Lemma iter_ok_machine_rev : iter_ok Fixture.machine_rev.
Proof. intros s. cbn. symmetry. apply Permutation_rev. Defined.

Lemma same_snapshot_machine_rev : same_snapshot Fixture.machine Fixture.machine_rev.
Proof. repeat split. Defined.

Lemma C8_scan_repeatable_witness :
  same_result (result (main Fixture.machine "proj"))
              (result (main Fixture.machine_rev "proj")).
Proof.
  apply (C8_scan_repeatable Fixture.machine Fixture.machine_rev "proj").
  - exact same_snapshot_machine_rev.
  - exact iter_ok_machine.
  - exact iter_ok_machine_rev.
Defined.

(** The two runs of the sample project do differ in the order of the names
    of one message. *)
Example machine_rev_order :
  value_or [] (result (analyze_file Fixture.machine "proj/pkg/d.py"))
  = [ {| file := "proj/pkg/d.py"; line := PyStr "?";
         message := "Undefined names: ['osp', 'args']" |} ] /\
  value_or [] (result (analyze_file Fixture.machine_rev "proj/pkg/d.py"))
  = [ {| file := "proj/pkg/d.py"; line := PyStr "?";
         message := "Undefined names: ['args', 'osp']" |} ].
Proof. split; vm_compute; reflexivity. Qed.

(** ** The syntax check: claim C5 *)

(** C5, the claim as stated fails: a file whose first line declares an
    unknown encoding does not compile, and the error CPython raises has
    line number 0; the diagnostic carries this 0, which is neither a
    positive integer nor a sentinel for an unknown line. *)
Lemma C5_line_zero_counterexample :
  exists d,
    py_compile Fixture.machine "proj/pkg/f.py"
    = PyCompileError (SyntaxError (PyInt 0) "unknown encoding: foobar") /\
    result (check_syntax Fixture.machine "proj/pkg/f.py") = Ok (Some d) /\
    ~ ((exists n, line d = PyInt n /\ (0 < n)%Z)
       \/ line d = unknown_line \/ line d = PyNone).
Proof.
  eexists. split; [reflexivity|]. split; [reflexivity|]. cbn.
  intros [(n & Hn & Hpos)|[H|H]]; try discriminate H.
  injection Hn as <-. lia.
Qed.

(** C5, amended: when compilation fails with a syntax error, the check
    returns one diagnostic, made of the path, the line number of the error
    as the compiler gave it, and the message of the error; when compilation
    succeeds it returns none; a diagnostic is returned in no other case, and
    the file analyzer then reports exactly this one. *)
Theorem C5_check_syntax w path :
  (py_compile w path = Compiled -> result (check_syntax w path) = Ok None) /\
  (forall lineno msg,
     py_compile w path = PyCompileError (SyntaxError lineno msg) ->
     result (check_syntax w path)
     = Ok (Some {| file := path; line := lineno; message := msg |}) /\
     result (analyze_file w path)
     = Ok [ {| file := path; line := lineno; message := msg |} ]) /\
  (forall d, result (check_syntax w path) = Ok (Some d) ->
     exists lineno msg,
       py_compile w path = PyCompileError (SyntaxError lineno msg) /\
       d = {| file := path; line := lineno; message := msg |}).
Proof.
  rewrite analyze_file_eq, check_syntax_result. split; [|split].
  - intros ->. reflexivity.
  - intros lineno msg ->. split; reflexivity.
  - intros d. destruct (py_compile w path) as [|[lineno msg|cls]|e];
      try discriminate.
    intros H. injection H as <-. eauto.
Qed.

Lemma C5_check_syntax_witness :
  result (check_syntax Fixture.machine "proj/pkg/b.py")
  = Ok (Some {| file := "proj/pkg/b.py"; line := PyInt 1;
                message := "'(' was never closed" |}) /\
  result (analyze_file Fixture.machine "proj/pkg/b.py")
  = Ok [ {| file := "proj/pkg/b.py"; line := PyInt 1;
            message := "'(' was never closed" |} ].
Proof.
  apply (proj1 (proj2 (C5_check_syntax Fixture.machine "proj/pkg/b.py"))).
  reflexivity.
Defined.

(** ** The line counter: claim C7 *)

Lemma readlines_nil s : readlines s = [] -> s = "".
Proof.
  destruct s as [|c s]; [reflexivity|]. cbn [readlines].
  destruct (Ascii.eqb c LF); [discriminate|].
  destruct (readlines s); discriminate.
Qed.

(** The lines, put end to end, are the text. *)
Lemma readlines_concat s : fold_right String.app "" (readlines s) = s.
Proof.
  induction s as [|c s IHs]; [reflexivity|]. cbn [readlines].
  destruct (Ascii.eqb c LF).
  - cbn [fold_right]. rewrite IHs. reflexivity.
  - destruct (readlines s) as [|l ls] eqn:E.
    + rewrite (readlines_nil s E). reflexivity.
    + cbn [fold_right] in *. rewrite string_app_cons, IHs. reflexivity.
Qed.

(** Each line is a record. *)
Lemma readlines_records s : Forall is_record (readlines s).
Proof.
  induction s as [|c s IHs]; [constructor|]. cbn [readlines].
  destruct (Ascii.eqb c LF) eqn:Ec.
  - constructor; [|exact IHs]. apply Ascii.eqb_eq in Ec as ->.
    exists "". split; [reflexivity | left; reflexivity].
  - destruct (readlines s) as [|l ls].
    + constructor; [|constructor]. exists (String c "").
      split; [cbn; rewrite Ec; reflexivity | right; split; [reflexivity | discriminate]].
    + inversion IHs as [|? ? (body & Hb & Hl) Hls]; subst.
      constructor; [|exact Hls]. exists (String c body). split.
      * cbn. rewrite Ec, Hb. reflexivity.
      * destruct Hl as [->|[-> _]]; [left; reflexivity | right; split; [reflexivity | discriminate]].
Qed.

(** There is one line per newline, and one more when the text does not
    end with a newline. *)
Lemma readlines_length s :
  length (readlines s) = count_char LF s + (if ends_open s then 1 else 0).
Proof.
  induction s as [|c s IHs]; [reflexivity|].
  assert (Hopen : ends_open (String c s)
                  = match s with
                    | EmptyString => negb (Ascii.eqb c LF)
                    | String _ _ => ends_open s
                    end) by reflexivity.
  rewrite Hopen. cbn [readlines count_char].
  destruct (Ascii.eqb c LF) eqn:Ec.
  - cbn [length negb]. rewrite IHs. destruct s; reflexivity.
  - destruct (readlines s) as [|l ls] eqn:E.
    + rewrite (readlines_nil s E). reflexivity.
    + destruct s as [|c' s']; [discriminate E|].
      change (length (String c l :: ls)) with (length (l :: ls)).
      rewrite IHs. reflexivity.
Qed.

Lemma list_byte_of_string_cons b s :
  String.list_byte_of_string (String (ascii_of_byte b) s)
  = b :: String.list_byte_of_string s.
Proof.
  unfold String.list_byte_of_string. cbn. rewrite byte_of_ascii_of_byte.
  reflexivity.
Qed.

Lemma utf8_len_ascii b r : (Byte.to_N b <? 128)%N = true -> utf8_len (b :: r) = 1.
Proof. intros H. unfold utf8_len. rewrite H. reflexivity. Qed.

(** The decoded text consists of bytes of the file, in their order. *)
Lemma decode_sublist bs : forall k,
  String.list_byte_of_string (decode_from k bs) `sublist_of` bs.
Proof.
  induction bs as [|b r IHr]; intros k; [constructor|].
  cbn [decode_from]. destruct k as [|k].
  - destruct (utf8_len (b :: r)).
    + apply sublist_cons, IHr.
    + rewrite list_byte_of_string_cons. apply sublist_skip, IHr.
  - rewrite list_byte_of_string_cons. apply sublist_skip, IHr.
Qed.

(** No ASCII byte is dropped; in particular no newline is. *)
Lemma decode_keeps_ascii bs : forall k,
  ascii_part (String.list_byte_of_string (decode_from k bs)) = ascii_part bs.
Proof.
  induction bs as [|b r IHr]; intros k; [reflexivity|].
  cbn [decode_from]. destruct k as [|k].
  - destruct (utf8_len (b :: r)) eqn:E.
    + unfold ascii_part at 2. cbn [List.filter].
      destruct (Byte.to_N b <? 128)%N eqn:Eb.
      * rewrite (utf8_len_ascii b r Eb) in E. discriminate E.
      * apply IHr.
    + rewrite list_byte_of_string_cons. unfold ascii_part. cbn [List.filter].
      fold (ascii_part r). rewrite <- (IHr n). reflexivity.
  - rewrite list_byte_of_string_cons. unfold ascii_part. cbn [List.filter].
    fold (ascii_part r). rewrite <- (IHr k). reflexivity.
Qed.

Lemma decode_from_pending (seq rest : list Byte.byte) :
  decode_from (length seq) (seq ++ rest)
  = String.string_of_list_byte seq +:+ decode_from 0 rest.
Proof.
  induction seq as [|b seq IH]; [reflexivity|].
  cbn [length app decode_from]. rewrite IH. reflexivity.
Qed.

Lemma string_of_list_byte_app (l1 l2 : list Byte.byte) :
  String.string_of_list_byte (l1 ++ l2)
  = String.string_of_list_byte l1 +:+ String.string_of_list_byte l2.
Proof.
  induction l1 as [|b l1 IH]; [reflexivity|].
  change (String.string_of_list_byte ((b :: l1) ++ l2))
    with (String (ascii_of_byte b) (String.string_of_list_byte (l1 ++ l2))).
  rewrite IH. reflexivity.
Qed.

(** Well-formed UTF-8 is read unchanged. *)
Lemma decode_well_formed bs :
  well_formed bs -> decode_utf8_ignore bs = String.string_of_list_byte bs.
Proof.
  unfold decode_utf8_ignore. induction 1 as [|b seq rest Hlen _ IH]; [reflexivity|].
  cbn [decode_from]. rewrite Hlen, decode_from_pending, IH.
  rewrite <- string_of_list_byte_app. reflexivity.
Qed.

(** C7: the line counter never raises; a file that cannot be opened or
    read counts 0 lines; otherwise the count is the number of lines of the
    text read, which are newline-delimited records that make up the text
    (one per newline, and one more for an unterminated end); the text is
    read by dropping the bytes that are not part of well-formed UTF-8,
    keeping the order of the others, every ASCII byte (so every newline),
    and the whole of a well-formed file. *)
Theorem C7_count_lines w path :
  (exists n, count_lines w path = ([EvCall f_count_lines path], Ok n)) /\
  (forall e, open_read w path = inr e -> result (count_lines w path) = Ok 0) /\
  (forall bs, open_read w path = inl bs ->
     let raw := decode_utf8_ignore bs in
     let text := translate_newlines raw in
     result (count_lines w path) = Ok (length (readlines text)) /\
     fold_right String.app "" (readlines text) = text /\
     Forall is_record (readlines text) /\
     length (readlines text)
     = count_char LF text + (if ends_open text then 1 else 0) /\
     String.list_byte_of_string raw `sublist_of` bs /\
     ascii_part (String.list_byte_of_string raw) = ascii_part bs /\
     (well_formed bs -> raw = String.string_of_list_byte bs)).
Proof.
  split; [eexists; apply count_lines_eq|]. unfold count_lines. split.
  - intros e ->. reflexivity.
  - intros bs Hbs. cbv zeta. rewrite Hbs. split; [reflexivity|].
    split; [apply readlines_concat|]. split; [apply readlines_records|].
    split; [apply readlines_length|]. split; [apply decode_sublist|].
    split; [apply decode_keeps_ascii | apply decode_well_formed].
Qed.

Lemma C7_count_lines_witness :
  result (count_lines Fixture.raw_machine "raw/missing.py") = Ok 0 /\
  result (count_lines Fixture.raw_machine "raw/raw.py") = Ok 3 /\
  decode_utf8_ignore Fixture.raw_bytes
  = String.string_of_list_byte
      [Byte.x61; Byte.x0a; Byte.xe2; Byte.x82; Byte.xac; Byte.x0a; Byte.x62].
Proof.
  destruct (C7_count_lines Fixture.raw_machine "raw/missing.py") as (_ & H0 & _).
  destruct (C7_count_lines Fixture.raw_machine "raw/raw.py") as (_ & _ & H1).
  split; [apply (H0 PermissionError); reflexivity|].
  destruct (H1 Fixture.raw_bytes eq_refl) as (Hn & _).
  split; [exact Hn | reflexivity].
Defined.

(** * Further properties of the scanner *)

(** ** The names a file gets reported *)

(** X1: on a file that can be read and parsed, [find_undefined_names]
    raises [RecursionError] when the tree is nested deeper than the
    recursion limit lets the visitor go, and returns a list otherwise.  A
    name is in that list exactly when the tree holds a load of it, no node
    of the tree binds it (as the name of a [def], a bare-name target of an
    assignment, the first segment of an imported module or a name imported
    by [from ... import]), it is not in [dir(__builtins__)] and it does
    not start with two underscores.  Where the load and the binding stand
    in the file plays no part. *)
Theorem reported_names_exact w path bs tree :
  iter_ok w ->
  open_read w path = inl bs ->
  ast_parse w (translate_newlines (decode_utf8_ignore bs)) = Some tree ->
  (recursion_exceeded w tree = true ->
     result (find_undefined_names w path) = Raise RecursionError) /\
  (recursion_exceeded w tree = false ->
     exists undefined,
       result (find_undefined_names w path) = Ok undefined /\
       forall x, x ∈ undefined <->
         subnode (Name x Load) tree /\
         (forall m, subnode m tree -> ~ binds_name m x) /\
         (x ∉ dir_builtins w) /\ startswith x "__" = false).
Proof.
  intros Hw Ho Hp. rewrite find_undefined_names_result, Ho, Hp. split.
  - intros ->. reflexivity.
  - intros ->. eexists. split; [reflexivity|].
    intros x. rewrite elem_of_undefined_of by (exact Hw || apply log_ok_tree).
    rewrite <- load_iff, <- no_binder_iff. reflexivity.
Qed.

Lemma reported_names_exact_witness :
  exists undefined,
    result (find_undefined_names Fixture.machine "proj/pkg/c.py") = Ok undefined /\
    forall x, x ∈ undefined <->
      subnode (Name x Load) Fixture.param_tree /\
      (forall m, subnode m Fixture.param_tree -> ~ binds_name m x) /\
      (x ∉ Fixture.builtins) /\ startswith x "__" = false.
Proof.
  apply (reported_names_exact Fixture.machine "proj/pkg/c.py"
           (String.list_byte_of_string Fixture.param_src) Fixture.param_tree).
  - exact iter_ok_machine.
  - reflexivity.
  - vm_compute. reflexivity.
  - reflexivity.
Defined.

Lemma same_names_refl a : same_names a a.
Proof. repeat split. Qed.

Lemma same_names_trans a b c : same_names a b -> same_names b c -> same_names a c.
Proof.
  intros (Hd1 & Hu1 & Hl1) (Hd2 & Hu2 & Hl2).
  repeat split; etransitivity; eassumption.
Qed.

Lemma same_names_log a b x :
  same_names a b -> x ∈ used_log a <-> x ∈ used_log b.
Proof.
  intros (_ & _ & Hl).
  rewrite <- !(elem_of_list_to_set (C := gset string)), Hl. reflexivity.
Qed.

Lemma visit_same_names n a b :
  same_names a b -> same_names (visit n a) (visit n b).
Proof.
  intros Hab. pose proof Hab as (Hd & Hu & _).
  split; [|split]; apply set_eq; intros x.
  - rewrite !visit_defined, Hd. reflexivity.
  - rewrite !visit_used, Hu. reflexivity.
  - rewrite !elem_of_list_to_set, !visit_used_log, (same_names_log a b x Hab).
    reflexivity.
Qed.

Lemma visit_comm a b st : same_names (visit a (visit b st)) (visit b (visit a st)).
Proof.
  split; [|split]; apply set_eq; intros x.
  - rewrite !visit_defined. tauto.
  - rewrite !visit_used. tauto.
  - rewrite !elem_of_list_to_set, !visit_used_log. tauto.
Qed.

Lemma visit_list_same_names l : forall a b,
  same_names a b -> same_names (visit_list l a) (visit_list l b).
Proof.
  induction l as [|n l IHl]; intros a b Hab; [exact Hab|].
  rewrite !visit_list_cons. apply IHl, visit_same_names, Hab.
Qed.

Lemma visit_list_Permutation (l1 l2 : list node) :
  l1 ≡ₚ l2 -> forall a b, same_names a b ->
  same_names (visit_list l1 a) (visit_list l2 b).
Proof.
  induction 1 as [|x l1 l2 _ IH|x y l|l1 l2 l3 _ IH1 _ IH2]; intros a b Hab.
  - exact Hab.
  - rewrite !visit_list_cons. apply IH, visit_same_names, Hab.
  - rewrite !visit_list_cons. apply visit_list_same_names.
    eapply same_names_trans; [apply visit_comm|].
    apply visit_same_names, visit_same_names, Hab.
  - eapply same_names_trans; [apply IH1, same_names_refl | apply IH2, Hab].
Qed.

(** States that hold the same names get the same names reported, in an
    order that may differ. *)
Lemma undefined_of_same_names w a b :
  iter_ok w -> same_names a b -> undefined_of w a ≡ₚ undefined_of w b.
Proof.
  intros Hw (Hd & _ & Hl). rewrite !undefined_of_filter.
  replace (reportable w b) with (reportable w a)
    by (unfold reportable; rewrite Hd; reflexivity).
  apply filter_Permutation. rewrite (Hw (used_log a)), (Hw (used_log b)), Hl.
  reflexivity.
Qed.

(** X2: the analysis does not look at the order of the statements: two
    modules whose bodies hold the same statements in another order give
    the same binding set and the same use set, hence the same reported
    names; the list of these names may come in another order, since the
    enumeration of a set may depend on the order in which it was filled.
    A name used before the statement that binds it is therefore not
    reported. *)
Theorem statement_order_irrelevant w (l1 l2 : list node) st :
  iter_ok w ->
  l1 ≡ₚ l2 ->
  defined (visit (Module l1) st) = defined (visit (Module l2) st) /\
  used (visit (Module l1) st) = used (visit (Module l2) st) /\
  undefined_of w (visit (Module l1) st) ≡ₚ undefined_of w (visit (Module l2) st).
Proof.
  intros Hw Hp.
  assert (H : same_names (visit (Module l1) st) (visit (Module l2) st)).
  { rewrite !visit_Module. apply visit_list_Permutation; [exact Hp|].
    apply same_names_refl. }
  split; [apply H|]. split; [apply H|].
  apply undefined_of_same_names; assumption.
Qed.

Lemma iter_ok_machine_fifo : iter_ok Fixture.machine_fifo.
Proof.
  intros log. cbn. apply NoDup_Permutation.
  - apply NoDup_remove_dups.
  - apply NoDup_elements.
  - intros x. rewrite elem_of_remove_dups, elem_of_elements, elem_of_list_to_set.
    reflexivity.
Qed.

(** The lists of the two modules can differ in a run that enumerates a
    set in the order of the additions. *)
Example insertion_order_shows :
  let a := Expr (Name "alpha" Load) in
  let b := Expr (Name "beta" Load) in
  undefined_of Fixture.machine_fifo (visit (Module [a; b]) no_names)
  = ["alpha"; "beta"] /\
  undefined_of Fixture.machine_fifo (visit (Module [b; a]) no_names)
  = ["beta"; "alpha"].
Proof. split; vm_compute; reflexivity. Qed.

Lemma statement_order_irrelevant_witness :
  let use := Expr (Call (Name "print" Load) [Name "total" Load] []) in
  let bind := Assign [Name "total" Store] (Constant (PyInt 0)) in
  defined (visit (Module [use; bind]) no_names)
  = defined (visit (Module [bind; use]) no_names) /\
  used (visit (Module [use; bind]) no_names)
  = used (visit (Module [bind; use]) no_names) /\
  undefined_of Fixture.machine (visit (Module [use; bind]) no_names)
  ≡ₚ undefined_of Fixture.machine (visit (Module [bind; use]) no_names).
Proof.
  intros use bind.
  apply (statement_order_irrelevant Fixture.machine [use; bind] [bind; use]).
  - exact iter_ok_machine.
  - apply perm_swap.
Defined.

(** ** Discovery *)

Lemma string_length_app (a b : string) :
  String.length (a +:+ b) = String.length a + String.length b.
Proof.
  induction a as [|c a IHa]; [reflexivity|].
  rewrite string_app_cons. cbn [String.length]. rewrite IHa. reflexivity.
Qed.

Lemma substring_full (s : string) : String.substring 0 (String.length s) s = s.
Proof. induction s as [|c s IHs]; cbn; [reflexivity | rewrite IHs; reflexivity]. Qed.

Lemma substring_suffix (a b : string) :
  String.substring (String.length a) (String.length b) (a +:+ b) = b.
Proof.
  induction a as [|c a IHa]; [apply substring_full|].
  rewrite string_app_cons. cbn [String.length String.substring]. exact IHa.
Qed.

Lemma substring_split (s : string) : forall m k,
  m + k = String.length s ->
  s = String.substring 0 m s +:+ String.substring m k s.
Proof.
  induction s as [|c s IHs]; intros m k H.
  - destruct m, k; try discriminate H. reflexivity.
  - destruct m as [|m].
    + cbn in H. subst k. cbn [String.substring].
      rewrite substring_full. reflexivity.
    + cbn [String.substring]. rewrite string_app_cons.
      rewrite <- (IHs m k); [reflexivity|]. cbn in H. lia.
Qed.

(** [s.endswith(p)] holds exactly when [s] is some text followed by [p]. *)
Lemma endswith_iff (s p : string) :
  endswith s p = true <-> exists pre, s = pre +:+ p.
Proof.
  unfold endswith. rewrite andb_true_iff, Nat.leb_le, String.eqb_eq. split.
  - intros [Hle Hsub].
    exists (String.substring 0 (String.length s - String.length p) s).
    etransitivity;
      [apply (substring_split s (String.length s - String.length p)
                (String.length p)); lia|].
    f_equal. exact Hsub.
  - intros [pre ->]. rewrite string_length_app. split; [lia|].
    replace (String.length pre + String.length p - String.length p)
      with (String.length pre) by lia.
    apply substring_suffix.
Qed.

Lemma path_join_suffix (root name : string) :
  exists pre, path_join root name = pre +:+ name.
Proof.
  unfold path_join. destruct (startswith name "/"); [exists ""; reflexivity|].
  destruct (_ || _); [exists root; reflexivity|].
  exists (root +:+ "/"). rewrite string_app_assoc. reflexivity.
Qed.

(** X3: discovery returns exactly the paths made of a directory of the
    walk and one of its file names that ends in [.py] (entries listed as
    sub-directories are never returned, whatever their name), and every
    path it returns ends in [.py]. *)
Theorem discovered_paths w folder p :
  (p ∈ discovered w folder <->
   exists root dirs files name,
     (root, dirs, files) ∈ os_walk w folder /\ name ∈ files /\
     endswith name ".py" = true /\ p = path_join root name) /\
  (p ∈ discovered w folder -> endswith p ".py" = true).
Proof.
  assert (Hiff : p ∈ discovered w folder <->
   exists root dirs files name,
     (root, dirs, files) ∈ os_walk w folder /\ name ∈ files /\
     endswith name ".py" = true /\ p = path_join root name).
  { rewrite discovered_eq, list_elem_of_In, in_concat. split.
    - intros (l & Hl & Hp). apply in_map_iff in Hl as ([[root dirs] files] & <- & Ht).
      apply in_map_iff in Hp as (name & <- & Hn).
      apply filter_In in Hn as [Hn Hpy].
      exists root, dirs, files, name. rewrite !list_elem_of_In. auto.
    - intros (root & dirs & files & name & Ht & Hn & Hpy & ->).
      exists (map (path_join root) (py_names files)). split.
      + apply in_map_iff. exists (root, dirs, files).
        split; [reflexivity | apply list_elem_of_In, Ht].
      + apply in_map, filter_In. split; [apply list_elem_of_In, Hn | exact Hpy]. }
  split; [exact Hiff|].
  intros Hp. apply Hiff in Hp as (root & dirs & files & name & _ & _ & Hpy & ->).
  apply endswith_iff in Hpy as [pre ->].
  destruct (path_join_suffix root (pre +:+ ".py")) as [q ->].
  apply endswith_iff. exists (q +:+ pre). rewrite string_app_assoc. reflexivity.
Qed.

Lemma discovered_paths_witness :
  "proj/pkg/b.py" ∈ discovered Fixture.machine "proj" /\
  endswith "proj/pkg/b.py" ".py" = true.
Proof.
  pose proof (discovered_paths Fixture.machine "proj" "proj/pkg/b.py") as [Hiff Hend].
  assert (H : "proj/pkg/b.py" ∈ discovered Fixture.machine "proj").
  { apply Hiff. exists "proj/pkg", [], ["b.py"; "c.py"; "d.py"; "e.py"; "f.py"], "b.py".
    split; [right; left|]. split; [left|]. split; reflexivity. }
  split; [exact H | exact (Hend H)].
Defined.

(** ** The events of a scan *)

Lemma print_issues_eq errs : forall i,
  print_issues i errs = (issue_blocks i errs, Ok tt).
Proof.
  induction errs as [|err errs IH]; intros i; [reflexivity|].
  cbn [print_issues issue_blocks]. rewrite IH. reflexivity.
Qed.

Lemma analyze_loop_trace w files acc :
  trace (for_each files acc (fun errors f =>
                               problems <- analyze_file w f ;;
                               ret (errors ++ problems)))
  = analysis_trace w files.
Proof.
  revert acc; induction files as [|f files IH]; intros acc; [reflexivity|].
  cbn [for_each analysis_trace]. rewrite trace_bind, trace_bind, result_bind.
  destruct (result (analyze_file w f)) as [ds|e]; cbn [trace ret fst result snd].
  - rewrite app_nil_r, IH. reflexivity.
  - rewrite app_nil_r. reflexivity.
Qed.

Lemma pair_eq {A B} (x : A * B) (a : A) (b : B) : x.1 = a -> x.2 = b -> x = (a, b).
Proof. destruct x. cbn. intros -> ->. reflexivity. Qed.

Lemma trace_mk {A} (t : list event) (r : outcome A) : trace (t, r) = t.
Proof. reflexivity. Qed.

Lemma result_mk {A} (t : list event) (r : outcome A) : result (t, r) = r.
Proof. reflexivity. Qed.

Lemma trace_print {A} args (k : M A) :
  trace (print args ;;; k) = EvPrint args :: trace k.
Proof. rewrite trace_bind. reflexivity. Qed.

Lemma result_print_ok args : result (print args) = Ok tt.
Proof. reflexivity. Qed.

(** The events of a scan, in order. *)
Lemma main_trace w project_path :
  trace (main w project_path)
  = [EvPrint [PyStr (NL +:+ "===== 🔍 SMART PROJECT INSPECTOR =====" +:+ NL)];
     EvPrint [PyStr (NL +:+ "📖 Scanning:"); PyStr project_path; PyStr NL];
     EvCall f_get_python_files project_path]
    ++ match discovered w project_path with
       | [] => [EvPrint [PyStr "❌ No Python files found."]]
       | f :: l =>
           map (EvCall f_count_lines) (f :: l)
           ++ analysis_trace w (f :: l)
           ++ match analyze_all w (f :: l) with
              | Ok errs =>
                  report_events (length (f :: l))
                    (sum_list (map (lines_of w) (f :: l))) errs
              | Raise _ => []
              end
       end.
Proof.
  unfold main. rewrite !trace_print, trace_bind, get_python_files_eq.
  rewrite trace_mk, result_mk. cbn [app]. do 3 f_equal.
  destruct (discovered w project_path) as [|f l]; [reflexivity|].
  rewrite trace_bind, count_loop, trace_mk, result_mk. f_equal.
  rewrite trace_bind, analyze_loop_trace, analyze_loop_result. f_equal.
  destruct (analyze_all w (f :: l)) as [errs|e]; [|reflexivity].
  cbn [app Nat.add]. rewrite !trace_print, trace_bind.
  unfold report_events. cbn [app]. do 4 f_equal.
  destruct errs as [|err errs].
  - rewrite result_print_ok, !trace_print. reflexivity.
  - rewrite trace_print, print_issues_eq, trace_mk.
    rewrite result_print, result_mk, trace_print. reflexivity.
Qed.

Lemma calls_of_app f t1 t2 : calls_of f (t1 ++ t2) = calls_of f t1 ++ calls_of f t2.
Proof. apply omap_app. Qed.

Lemma output_app t1 t2 : output (t1 ++ t2) = output t1 ++ output t2.
Proof. apply omap_app. Qed.

Lemma calls_of_map g f (l : list string) :
  calls_of f (map (EvCall g) l) = if func_eqb g f then l else [].
Proof.
  induction l as [|x l IHl]; [destruct (func_eqb g f); reflexivity|].
  cbn [map calls_of omap list_omap] in *. fold (calls_of f (map (EvCall g) l)).
  rewrite IHl. destruct (func_eqb g f); reflexivity.
Qed.

Lemma output_map g (l : list string) : output (map (EvCall g) l) = [].
Proof. induction l as [|x l IHl]; [reflexivity | exact IHl]. Qed.

Lemma calls_of_issue_blocks f errs : forall i, calls_of f (issue_blocks i errs) = [].
Proof. induction errs as [|err errs IH]; intros i; [reflexivity | apply IH]. Qed.

Lemma calls_of_report f n k errs : calls_of f (report_events n k errs) = [].
Proof.
  unfold report_events. rewrite !calls_of_app.
  destruct errs as [|err errs]; [reflexivity|].
  cbn [calls_of omap list_omap app]. fold (calls_of f (issue_blocks 1 (err :: errs))).
  rewrite calls_of_issue_blocks. reflexivity.
Qed.

(** The calls that the analysis of one file makes. *)
Lemma analyze_file_calls w path g :
  calls_of g (trace (analyze_file w path))
  = (if func_eqb f_analyze_file g then [path] else [])
    ++ (if func_eqb f_check_syntax g then [path] else [])
    ++ (if compiles w path && func_eqb f_find_undefined_names g then [path] else []).
Proof.
  rewrite analyze_file_eq, check_syntax_result. unfold compiles.
  destruct (py_compile w path) as [|[]|]; destruct g; reflexivity.
Qed.

Lemma analyze_file_output w path : output (trace (analyze_file w path)) = [].
Proof.
  rewrite analyze_file_eq, check_syntax_result.
  destruct (py_compile w path) as [|[]|]; reflexivity.
Qed.

Lemma analysis_trace_output w files : output (analysis_trace w files) = [].
Proof.
  induction files as [|f files IH]; [reflexivity|].
  cbn [analysis_trace]. rewrite output_app, analyze_file_output.
  destruct (result (analyze_file w f)); [exact IH | reflexivity].
Qed.

(** A diagnostic of a file names that file, and there is at most one. *)
Lemma analyze_file_diagnostics w path ds :
  result (analyze_file w path) = Ok ds ->
  ds = [] \/ exists d, ds = [d] /\ file d = path.
Proof.
  rewrite analyze_file_eq, check_syntax_result, find_undefined_names_result.
  destruct (py_compile w path) as [|[lineno msg|cls]|e]; cbn; try discriminate.
  - destruct (open_read w path) as [bs|e]; [|discriminate].
    destruct (ast_parse w _) as [tree|].
    + destruct (recursion_exceeded w tree); [discriminate|].
      intros H. injection H as <-.
      destruct (undefined_of w _); [left; reflexivity | right; eauto].
    + intros H. injection H as <-. left. reflexivity.
  - intros H. injection H as <-. right. eauto.
Qed.

Lemma analyze_all_files w files errs :
  analyze_all w files = Ok errs -> map file errs `sublist_of` files.
Proof.
  revert errs; induction files as [|f files IH]; intros errs; cbn [analyze_all].
  - intros H. injection H as <-. constructor.
  - destruct (result (analyze_file w f)) as [ds|e] eqn:Ef; [|discriminate].
    destruct (analyze_all w files) as [r|e]; [|discriminate].
    intros H. injection H as <-. rewrite map_app.
    destruct (analyze_file_diagnostics w f ds Ef) as [->|(d & -> & <-)].
    + apply sublist_cons, IH. reflexivity.
    + apply sublist_skip, IH. reflexivity.
Qed.

Lemma main_summary w project_path s :
  result (main w project_path) = Ok (Some s) ->
  exists f l, discovered w project_path = f :: l /\
    analyze_all w (f :: l) = Ok (errors s) /\
    total_files s = length (f :: l) /\
    total_lines s = sum_list (map (lines_of w) (f :: l)).
Proof.
  rewrite main_result. destruct (discovered w project_path) as [|f l]; [discriminate|].
  cbv zeta. destruct (analyze_all w (f :: l)) as [errs|e] eqn:Ea; [|discriminate].
  intros H. injection H as <-. exists f, l. repeat split. exact Ea.
Qed.

(** X4: in a summary, the files of the diagnostics are discovered files, in
    discovery order and at most one diagnostic for each file: the list of
    their files is a sublist of the discovered files, so there are never
    more issues than files. *)
Theorem summary_diagnostics w project_path s :
  result (main w project_path) = Ok (Some s) ->
  map file (errors s) `sublist_of` discovered w project_path /\
  length (errors s) <= total_files s.
Proof.
  intros H. destruct (main_summary w project_path s H) as (f & l & -> & Ha & -> & _).
  pose proof (analyze_all_files w (f :: l) (errors s) Ha) as Hsub.
  split; [exact Hsub|]. apply sublist_length in Hsub.
  rewrite length_map in Hsub. exact Hsub.
Qed.

Lemma summary_diagnostics_witness :
  exists s, result (main Fixture.machine "proj") = Ok (Some s) /\
    map file (errors s) `sublist_of` discovered Fixture.machine "proj" /\
    length (errors s) <= total_files s.
Proof.
  eexists. split; [vm_compute; reflexivity|].
  apply (summary_diagnostics Fixture.machine "proj"). vm_compute. reflexivity.
Defined.

Ltac calls_simpl :=
  rewrite ?analyze_file_calls; cbn [func_eqb];
  rewrite ?andb_false_r, ?andb_true_r; cbn [app]; rewrite ?app_nil_r.

Lemma analyze_all_raise w (pre post : list string) f e :
  (forall g, g ∈ pre -> exists ds, result (analyze_file w g) = Ok ds) ->
  result (analyze_file w f) = Raise e ->
  analyze_all w (pre ++ f :: post) = Raise e /\
  (forall g, calls_of g (analysis_trace w (pre ++ f :: post))
             = calls_of g (analysis_trace w (pre ++ [f]))) /\
  calls_of f_analyze_file (analysis_trace w (pre ++ [f])) = pre ++ [f].
Proof.
  intros Hpre Hf. induction pre as [|g pre IH]; cbn [app analyze_all analysis_trace].
  - rewrite Hf. split; [reflexivity|]. split; [reflexivity|].
    rewrite !app_nil_r. calls_simpl. reflexivity.
  - destruct (Hpre g) as [ds Hds]; [left|]. rewrite Hds.
    destruct IH as (Ha & Hc & Hn); [intros h Hh; apply Hpre; right; exact Hh|].
    rewrite Ha. split; [reflexivity|]. split.
    + intros h. rewrite !calls_of_app, Hc. reflexivity.
    + rewrite calls_of_app, Hn. calls_simpl. reflexivity.
Qed.

(** X5: an exception in the analysis of one file ends the whole scan.  When
    the analysis of a discovered file raises and the analyses of the files
    before it do not, [main] raises that exception: it returns no summary
    and prints nothing after the two opening lines, although the lines of
    all files were counted before; the files after the failing one are not
    analyzed. *)
Theorem main_aborts_on_failure w project_path (pre post : list string) f e :
  discovered w project_path = pre ++ f :: post ->
  (forall g, g ∈ pre -> exists ds, result (analyze_file w g) = Ok ds) ->
  result (analyze_file w f) = Raise e ->
  result (main w project_path) = Raise e /\
  calls_of f_count_lines (trace (main w project_path)) = pre ++ f :: post /\
  calls_of f_analyze_file (trace (main w project_path)) = pre ++ [f] /\
  output (trace (main w project_path))
  = [[PyStr (NL +:+ "===== 🔍 SMART PROJECT INSPECTOR =====" +:+ NL)];
     [PyStr (NL +:+ "📖 Scanning:"); PyStr project_path; PyStr NL]].
Proof.
  intros Hd Hpre Hf.
  destruct (analyze_all_raise w pre post f e Hpre Hf) as (Ha & Hc & Hn).
  rewrite main_result, main_trace, Hd.
  destruct (pre ++ f :: post) as [|x l] eqn:E; [destruct pre; discriminate E|].
  cbv zeta. rewrite <- E in *. rewrite Ha.
  rewrite !calls_of_app, !output_app, app_nil_r.
  rewrite !calls_of_map, !Hc, Hn, output_map, analysis_trace_output.
  split; [reflexivity|]. cbn [func_eqb calls_of omap list_omap app].
  assert (Hz : calls_of f_count_lines (analysis_trace w (pre ++ [f])) = []).
  { clear. induction (pre ++ [f]) as [|g l IHl]; [reflexivity|].
    cbn [analysis_trace]. rewrite calls_of_app. calls_simpl.
    destruct (result (analyze_file w g)); [exact IHl | reflexivity]. }
  rewrite Hz, !app_nil_r. repeat split.
Qed.

Lemma main_aborts_on_failure_witness :
  result (main Fixture.raw_machine "raw") = Raise PermissionError /\
  calls_of f_count_lines (trace (main Fixture.raw_machine "raw")) = ["raw/raw.py"] /\
  calls_of f_analyze_file (trace (main Fixture.raw_machine "raw")) = ["raw/raw.py"] /\
  output (trace (main Fixture.raw_machine "raw"))
  = [[PyStr (NL +:+ "===== 🔍 SMART PROJECT INSPECTOR =====" +:+ NL)];
     [PyStr (NL +:+ "📖 Scanning:"); PyStr "raw"; PyStr NL]].
Proof.
  apply (main_aborts_on_failure Fixture.raw_machine "raw" [] [] "raw/raw.py").
  - reflexivity.
  - intros g Hg. inversion Hg.
  - reflexivity.
Defined.

Lemma analysis_trace_calls w files errs g :
  analyze_all w files = Ok errs ->
  calls_of g (analysis_trace w files)
  = concat (map (fun f => calls_of g (trace (analyze_file w f))) files).
Proof.
  revert errs; induction files as [|f files IH]; intros errs; [reflexivity|].
  cbn [analyze_all analysis_trace map concat].
  destruct (result (analyze_file w f)); [|discriminate].
  destruct (analyze_all w files) as [r|]; [|discriminate]. intros _.
  rewrite calls_of_app, (IH r); reflexivity.
Qed.

Lemma concat_map_singleton {A} (l : list A) : concat (map (fun x => [x]) l) = l.
Proof. induction l as [|x l IHl]; [reflexivity | cbn; rewrite IHl; reflexivity]. Qed.

Lemma concat_map_nil {A B} (l : list A) : concat (map (fun _ => @nil B) l) = [].
Proof. induction l as [|x l IHl]; [reflexivity | exact IHl]. Qed.

Lemma concat_map_filter {A} (p : A -> bool) (l : list A) :
  concat (map (fun x => if p x then [x] else []) l) = List.filter p l.
Proof.
  induction l as [|x l IHl]; [reflexivity|]. cbn. rewrite IHl.
  destruct (p x); reflexivity.
Qed.

(** X6: in a scan that returns a summary, discovery runs once; then the
    lines of every discovered file are counted, once each and in discovery
    order; then every file is analyzed, once each and in the same order,
    with one syntax check per file; and [find_undefined_names] is called
    for exactly the files that compile. *)
Theorem scan_call_discipline w project_path s :
  result (main w project_path) = Ok (Some s) ->
  let t := trace (main w project_path) in
  let files := discovered w project_path in
  calls_of f_get_python_files t = [project_path] /\
  calls_of f_count_lines t = files /\
  calls_of f_analyze_file t = files /\
  calls_of f_check_syntax t = files /\
  calls_of f_find_undefined_names t = List.filter (compiles w) files /\
  exists t1 t2, t = t1 ++ map (EvCall f_count_lines) files ++ t2 /\
    calls_of f_analyze_file t1 = [] /\ calls_of f_count_lines t2 = [].
Proof.
  intros H. destruct (main_summary w project_path s H) as (f & l & Hd & Ha & _).
  cbv zeta. rewrite main_trace, Hd. rewrite Ha.
  assert (Hc : forall g, calls_of g (analysis_trace w (f :: l))
            = concat (map (fun x => calls_of g (trace (analyze_file w x))) (f :: l)))
    by (intros g; exact (analysis_trace_calls w _ _ g Ha)).
  assert (Hcount : calls_of f_count_lines (analysis_trace w (f :: l)) = []).
  { rewrite Hc. erewrite map_ext; [apply (concat_map_nil (f :: l))|].
    intros x. calls_simpl. reflexivity. }
  rewrite !calls_of_app, !calls_of_map, !calls_of_report, !Hc.
  cbn [func_eqb calls_of omap list_omap app]. rewrite !app_nil_r.
  split; [|split; [|split; [|split; [|split]]]].
  - erewrite map_ext; [rewrite (concat_map_nil (f :: l)); reflexivity|].
    intros x. calls_simpl. reflexivity.
  - rewrite <- Hc, Hcount, app_nil_r. reflexivity.
  - erewrite map_ext; [apply (concat_map_singleton (f :: l))|].
    intros x. calls_simpl. reflexivity.
  - erewrite map_ext; [apply (concat_map_singleton (f :: l))|].
    intros x. calls_simpl. reflexivity.
  - erewrite map_ext; [apply (concat_map_filter (compiles w) (f :: l))|].
    intros x. calls_simpl. reflexivity.
  - exists [EvPrint [PyStr (NL +:+ "===== 🔍 SMART PROJECT INSPECTOR =====" +:+ NL)];
            EvPrint [PyStr (NL +:+ "📖 Scanning:"); PyStr project_path; PyStr NL];
            EvCall f_get_python_files project_path].
    eexists. split; [reflexivity|]. split; [reflexivity|].
    rewrite calls_of_app, calls_of_report, Hcount. reflexivity.
Qed.

Lemma scan_call_discipline_witness :
  calls_of f_count_lines (trace (main Fixture.machine "proj"))
  = discovered Fixture.machine "proj" /\
  calls_of f_find_undefined_names (trace (main Fixture.machine "proj"))
  = ["proj/a.py"; "proj/pkg/c.py"; "proj/pkg/d.py"; "proj/pkg/e.py"].
Proof.
  assert (Hs : exists s, result (main Fixture.machine "proj") = Ok (Some s))
    by (eexists; vm_compute; reflexivity).
  destruct Hs as [s Hs].
  destruct (scan_call_discipline Fixture.machine "proj" s Hs)
    as (_ & Hcount & _ & _ & Hfind & _).
  split; [exact Hcount | rewrite Hfind; reflexivity].
Defined.

Lemma output_issue_blocks errs : forall i,
  output (issue_blocks i errs)
  = concat (imap (fun k err => issue_lines (i + k) err) errs).
Proof.
  induction errs as [|err errs IH]; intros i; [reflexivity|].
  cbn [issue_blocks]. rewrite output_app, IH, imap_cons. cbn [concat].
  rewrite Nat.add_0_r. f_equal. f_equal. apply imap_ext.
  intros k d _. cbn. rewrite Nat.add_succ_r. reflexivity.
Qed.

(** X7: what a scan that returns a summary prints, in full: the banner,
    the path, the three counts of the summary and an empty line; then
    either the line saying that the project is clean, when the summary has
    no diagnostic, or the heading of the details and, for the diagnostic
    at position [k], the five lines numbered [k + 1] with its file, line
    and message, in the order of the summary; and the closing line. *)
Theorem scan_output w project_path s :
  result (main w project_path) = Ok (Some s) ->
  output (trace (main w project_path))
  = [[PyStr (NL +:+ "===== 🔍 SMART PROJECT INSPECTOR =====" +:+ NL)];
     [PyStr (NL +:+ "📖 Scanning:"); PyStr project_path; PyStr NL];
     [PyStr "📂 Python Files :"; py_nat (total_files s)];
     [PyStr "📄 Total Lines  :"; py_nat (total_lines s)];
     [PyStr "🚨 Issues Found :"; py_nat (length (errors s))];
     []]
    ++ match errors s with
       | [] => [[PyStr "✅ No syntax or name errors. Project is clean!"]]
       | _ :: _ =>
           [PyStr ("===== ❌ ISSUE DETAILS =====" +:+ NL)]
           :: concat (imap (fun k err => issue_lines (S k) err) (errors s))
       end
    ++ [[PyStr (NL +:+ "===== ✔ Scan Complete =====" +:+ NL)]].
Proof.
  intros H. destruct (main_summary w project_path s H) as (f & l & Hd & Ha & -> & ->).
  rewrite main_trace, Hd, Ha. rewrite !output_app, output_map, analysis_trace_output.
  unfold report_events. rewrite !output_app.
  destruct (errors s) as [|err errs]; [reflexivity|].
  cbn [app output omap list_omap].
  fold (output (issue_blocks 1 (err :: errs))). rewrite output_issue_blocks.
  reflexivity.
Qed.

Lemma scan_output_witness :
  exists s, result (main Fixture.machine "proj") = Ok (Some s) /\
    output (trace (main Fixture.machine "proj"))
    = [[PyStr (NL +:+ "===== 🔍 SMART PROJECT INSPECTOR =====" +:+ NL)];
       [PyStr (NL +:+ "📖 Scanning:"); PyStr "proj"; PyStr NL];
       [PyStr "📂 Python Files :"; PyInt 6];
       [PyStr "📄 Total Lines  :"; PyInt 14];
       [PyStr "🚨 Issues Found :"; PyInt 5];
       []]
      ++ ([PyStr ("===== ❌ ISSUE DETAILS =====" +:+ NL)]
          :: concat (imap (fun k err => issue_lines (S k) err) (errors s)))
      ++ [[PyStr (NL +:+ "===== ✔ Scan Complete =====" +:+ NL)]].
Proof.
  eexists. split; [vm_compute; reflexivity|].
  rewrite (scan_output Fixture.machine "proj" _ ltac:(vm_compute; reflexivity)).
  reflexivity.
Defined.

(** ** Reading text *)

Lemma translate_newlines_no_cr (s : string) :
  has_char CR s = false -> translate_newlines s = s.
Proof.
  induction s as [|c s IHs]; [reflexivity|]. cbn [has_char translate_newlines].
  intros H. apply orb_false_iff in H as [Hc Hs]. rewrite Hc, IHs by exact Hs.
  reflexivity.
Qed.

Lemma translate_newlines_facts (n : nat) : forall s,
  String.length s <= n ->
  has_char CR (translate_newlines s) = false /\
  String.length (translate_newlines s) <= String.length s.
Proof.
  induction n as [|n IHn]; intros s Hn.
  - destruct s; [split; [reflexivity | cbn; lia] | cbn in Hn; lia].
  - destruct s as [|c s]; [split; [reflexivity | cbn; lia]|].
    cbn [String.length] in Hn. cbn [translate_newlines].
    destruct (Ascii.eqb c CR) eqn:Ec.
    + destruct s as [|c2 s2]; [split; [reflexivity | cbn; lia]|].
      cbn [String.length] in Hn. destruct (Ascii.eqb c2 LF).
      * destruct (IHn s2) as [H1 H2]; [lia|]. cbn [has_char String.length].
        rewrite H1. split; [reflexivity | lia].
      * destruct (IHn (String c2 s2)) as [H1 H2]; [cbn; lia|].
        cbn [has_char String.length] in *. rewrite H1. split; [reflexivity | lia].
    + destruct (IHn s) as [H1 H2]; [lia|]. cbn [has_char String.length].
      rewrite Ec, H1. split; [reflexivity | lia].
Qed.

(** X8: reading with universal newlines leaves no carriage return in the
    text, does not lengthen it, changes nothing in a text without carriage
    return, and so gives the same text when applied twice. *)
Theorem universal_newlines (s : string) :
  has_char CR (translate_newlines s) = false /\
  String.length (translate_newlines s) <= String.length s /\
  (has_char CR s = false -> translate_newlines s = s) /\
  translate_newlines (translate_newlines s) = translate_newlines s.
Proof.
  destruct (translate_newlines_facts (String.length s) s (le_n _)) as [H1 H2].
  split; [exact H1|]. split; [exact H2|].
  split; [apply translate_newlines_no_cr|].
  apply translate_newlines_no_cr, H1.
Qed.

Lemma readlines_bound (s : string) : length (readlines s) <= String.length s.
Proof.
  induction s as [|c s IHs]; [reflexivity|]. cbn [readlines String.length].
  destruct (Ascii.eqb c LF); [cbn [length]; lia|].
  destruct (readlines s); cbn [length] in *; lia.
Qed.

Lemma decode_from_bound bs : forall k, String.length (decode_from k bs) <= length bs.
Proof.
  induction bs as [|b r IHr]; intros k; [reflexivity|].
  cbn [decode_from length]. destruct k as [|k].
  - destruct (utf8_len (b :: r)); [specialize (IHr 0) | specialize (IHr n)];
      cbn [String.length]; lia.
  - specialize (IHr k). cbn [String.length]. lia.
Qed.

(** X9: the line count of a file never exceeds its size in bytes; an empty
    file has 0 lines. *)
Theorem count_lines_bound w path bs :
  open_read w path = inl bs ->
  exists n, result (count_lines w path) = Ok n /\ n <= length bs /\
            (bs = [] -> n = 0).
Proof.
  intros Ho. unfold count_lines. rewrite Ho. eexists. split; [reflexivity|].
  assert (Hb : length (readlines (translate_newlines (decode_utf8_ignore bs)))
               <= length bs).
  { etransitivity; [apply readlines_bound|].
    etransitivity;
      [apply (proj2 (translate_newlines_facts _ _ (le_n _)))|].
    apply decode_from_bound. }
  split; [exact Hb|]. intros ->. reflexivity.
Qed.

Lemma count_lines_bound_witness :
  exists n, result (count_lines Fixture.raw_machine "raw/raw.py") = Ok n /\
            n <= length Fixture.raw_bytes /\ (Fixture.raw_bytes = [] -> n = 0).
Proof.
  apply (count_lines_bound Fixture.raw_machine "raw/raw.py"). reflexivity.
Defined.

(** A sequence that [utf8_len] accepts is wholly there, and is accepted
    whatever follows it. *)
Lemma utf8_len_seq b r k :
  utf8_len (b :: r) = S k ->
  k <= length r /\ forall r', utf8_len (b :: take k r ++ r') = S k.
Proof.
  unfold utf8_len.
  destruct (Byte.to_N b <? 128)%N;
    [intros H; injection H as <-; split; [cbn; lia | reflexivity]|].
  destruct (Byte.to_N b <? 194)%N; [discriminate|].
  destruct (Byte.to_N b <? 224)%N.
  { destruct r as [|b2 r]; [discriminate|].
    destruct (is_cont b2) eqn:E2; [|discriminate].
    intros H; injection H as <-. split; [cbn; lia|].
    intros r'. cbn [take app]. rewrite E2. reflexivity. }
  destruct (Byte.to_N b <? 240)%N.
  { destruct r as [|b2 [|b3 r]]; try discriminate.
    destruct (byte_in _ _ b2 && is_cont b3) eqn:E; [|discriminate].
    intros H; injection H as <-. split; [cbn; lia|].
    intros r'. cbn [take app]. rewrite E. reflexivity. }
  destruct (Byte.to_N b <? 245)%N; [|discriminate].
  destruct r as [|b2 [|b3 [|b4 r]]]; try discriminate.
  destruct (byte_in _ _ b2 && is_cont b3 && is_cont b4) eqn:E; [|discriminate].
  intros H; injection H as <-. split; [cbn; lia|].
  intros r'. cbn [take app]. rewrite E. reflexivity.
Qed.

Lemma list_byte_of_string_app (a b : string) :
  String.list_byte_of_string (a +:+ b)
  = String.list_byte_of_string a ++ String.list_byte_of_string b.
Proof.
  induction a as [|c a IHa]; [reflexivity|].
  rewrite string_app_cons. unfold String.list_byte_of_string in *. cbn.
  rewrite IHa. reflexivity.
Qed.

Lemma decode_from_well_formed (n : nat) : forall bs,
  length bs <= n ->
  well_formed (String.list_byte_of_string (decode_from 0 bs)).
Proof.
  induction n as [|n IHn]; intros bs Hn.
  - destruct bs; [constructor | cbn in Hn; lia].
  - destruct bs as [|b r]; [constructor|]. cbn [length] in Hn.
    cbn [decode_from]. destruct (utf8_len (b :: r)) as [|k] eqn:E.
    + apply IHn. lia.
    + destruct (utf8_len_seq b r k E) as [Hk Hlen].
      rewrite <- (take_drop k r) at 1.
      replace k with (length (take k r)) at 1 by (rewrite length_take; lia).
      rewrite decode_from_pending, list_byte_of_string_cons.
      rewrite list_byte_of_string_app, String.list_byte_of_string_of_list_byte.
      apply wf_seq.
      * rewrite Hlen, length_take. f_equal. lia.
      * apply IHn. rewrite length_drop. lia.
Qed.

(** X10: whatever the bytes of the file, the text read from it is
    well-formed UTF-8, and decoding it again changes nothing. *)
Theorem decode_output_well_formed (bs : list Byte.byte) :
  let text := decode_utf8_ignore bs in
  well_formed (String.list_byte_of_string text) /\
  decode_utf8_ignore (String.list_byte_of_string text) = text.
Proof.
  intros text.
  assert (Hwf : well_formed (String.list_byte_of_string text))
    by exact (decode_from_well_formed (length bs) bs (le_n _)).
  split; [exact Hwf|].
  rewrite (decode_well_formed _ Hwf). apply String.string_of_list_byte_of_string.
Qed.

(** ** Imports *)

Lemma first_segment_split (s : string) :
  exists rest,
    s = first_segment s +:+ rest /\
    has_char "." (first_segment s) = false /\
    (rest = "" \/ exists r, rest = String "." r).
Proof.
  induction s as [|c s (rest & Hs & Hdot & Hrest)].
  - exists "". repeat split. left; reflexivity.
  - rewrite first_segment_cons. destruct (Ascii.eqb c ".") eqn:Ec.
    + apply Ascii.eqb_eq in Ec as ->. exists (String "." s).
      repeat split. right. eauto.
    + exists rest. rewrite string_app_cons, <- Hs. cbn [has_char].
      rewrite Ec, Hdot. repeat split. exact Hrest.
Qed.

(** X11: an [import] statement binds, for each module it names, the part
    of the dotted name that stands before the first dot (the whole name
    when it has no dot), whatever the rest of the name and whatever the
    alias; it binds nothing else and uses nothing. *)
Theorem import_binds_first_segment (l : list alias) st :
  (forall x, x ∈ defined (visit (Import l) st)
     <-> x ∈ defined st \/ exists a, a ∈ l /\ x = first_segment (alias_name a)) /\
  used (visit (Import l) st) = used st /\
  (forall a, a ∈ l ->
     exists rest,
       alias_name a = first_segment (alias_name a) +:+ rest /\
       has_char "." (first_segment (alias_name a)) = false /\
       (rest = "" \/ exists r, rest = String "." r)).
Proof.
  split; [|split].
  - intros x. rewrite visit_defined. split.
    + intros [H|(m & Hm & Hb)]; [auto|].
      inversion Hm as [|? ? ? Hin]; subst; [right; exact Hb | inversion Hin].
    + intros [H|H]; [auto|]. right. exists (Import l). split; [constructor | exact H].
  - apply set_eq. intros x. rewrite visit_used. split; [|auto].
    intros [H|H]; [exact H|]. exfalso.
    inversion H as [|? ? ? Hin]; subst; inversion Hin.
  - intros a _. apply first_segment_split.
Qed.

(** ** The prompt *)

Lemma replace_no_old (old new : ascii) (s : string) :
  old <> new -> has_char old (replace old new s) = false.
Proof.
  intros Hne. induction s as [|c s IHs]; [reflexivity|].
  cbn [replace has_char]. rewrite IHs, orb_false_r.
  destruct (Ascii.eqb c old) eqn:Ec; [|exact Ec].
  apply Ascii.eqb_neq. congruence.
Qed.

Lemma replace_length (old new : ascii) (s : string) :
  String.length (replace old new s) = String.length s.
Proof. induction s as [|c s IHs]; cbn; [reflexivity | rewrite IHs; reflexivity]. Qed.

Lemma strip_left_length t1 t2 t3 (n : nat) : forall s,
  String.length s <= n ->
  String.length (strip_left t1 t2 t3 s) <= String.length s.
Proof.
  induction n as [|n IHn]; intros s Hn.
  - destruct s; [reflexivity | cbn in Hn; lia].
  - destruct s as [|a [|b [|c r]]]; cbn [strip_left String.length] in *.
    + lia.
    + destruct (t1 a); cbn; lia.
    + destruct (t1 a).
      * specialize (IHn (String b "")). cbn in IHn.
        destruct (t1 b); cbn in *; lia.
      * destruct (t2 a b); cbn; lia.
    + destruct (t1 a).
      * specialize (IHn (String b (String c r))).
        cbn [strip_left String.length] in IHn. lia.
      * destruct (t2 a b).
        -- specialize (IHn (String c r)).
           cbn [strip_left String.length] in IHn. lia.
        -- destruct (t3 a b c); [|cbn [String.length]; lia].
           specialize (IHn r). lia.
Qed.

Lemma length_list_ascii_of_string (s : string) :
  length (list_ascii_of_string s) = String.length s.
Proof. induction s as [|c s IHs]; cbn; [reflexivity | rewrite IHs; reflexivity]. Qed.

Lemma length_string_of_list_ascii (l : list ascii) :
  String.length (string_of_list_ascii l) = length l.
Proof. induction l as [|c l IHl]; cbn; [reflexivity | rewrite IHl; reflexivity]. Qed.

Lemma string_rev_length (s : string) : String.length (string_rev s) = String.length s.
Proof.
  unfold string_rev.
  rewrite length_string_of_list_ascii, length_rev, length_list_ascii_of_string.
  reflexivity.
Qed.

Lemma strip_length (s : string) : String.length (strip s) <= String.length s.
Proof.
  unfold strip, rstrip, lstrip. rewrite string_rev_length.
  etransitivity; [eapply strip_left_length; reflexivity|].
  rewrite string_rev_length. eapply strip_left_length; reflexivity.
Qed.

Lemma substring_length (s : string) : forall n m,
  String.length (String.substring n m s) <= String.length s.
Proof.
  induction s as [|c s IHs]; intros n m.
  - destruct n, m; cbn; lia.
  - destruct n as [|n], m as [|m]; cbn [String.substring String.length].
    + lia.
    + specialize (IHs 0 m). lia.
    + specialize (IHs n 0). lia.
    + specialize (IHs n (S m)). lia.
Qed.

(** X12: what [get_project_path] does after the prompt.  When the input
    is at its end, [input()] raises [EOFError] and the exception comes out
    of the function, nothing else having been shown.  When [input()]
    returns a line, the function returns a path or exits: a path it
    returns exists, holds no backslash and is not longer than the line,
    and only the prompt was shown; when it exits it has shown the prompt
    and printed that the path does not exist. *)
Theorem get_project_path_outcome (c : console) :
  (typed c = None ->
   get_project_path c
   = ([Prompt "📂 Enter project folder path: "], Raised EOFError)) /\
  (forall line, typed c = Some line ->
   (exists p, get_project_path c
              = ([Prompt "📂 Enter project folder path: "], Returned p) /\
      path_exists c p = true /\ has_char BACKSLASH p = false /\
      String.length p <= String.length line) \/
   (get_project_path c
    = ([Prompt "📂 Enter project folder path: ";
        Output (EvPrint [PyStr (NL +:+ "❌ Path does not exist!")])], SystemExit))).
Proof.
  unfold get_project_path. split; [intros ->; reflexivity|].
  intros line ->. cbv zeta.
  destruct (path_exists c _) eqn:E; [left | right; reflexivity].
  eexists. split; [reflexivity|]. split; [exact E|].
  split; [apply replace_no_old; discriminate|].
  rewrite replace_length. destruct (_ && _).
  - etransitivity; [apply substring_length | apply strip_length].
  - apply strip_length.
Qed.

Lemma get_project_path_outcome_witness :
  get_project_path {| typed := None; path_exists := fun _ => true |}
  = ([Prompt "📂 Enter project folder path: "], Raised EOFError) /\
  ((exists p,
      get_project_path {| typed := Some " src\lib ";
                          path_exists := fun p => String.eqb p "src/lib" |}
      = ([Prompt "📂 Enter project folder path: "], Returned p) /\
      String.eqb p "src/lib" = true /\ has_char BACKSLASH p = false /\
      String.length p <= 9) \/
   get_project_path {| typed := Some " src\lib ";
                       path_exists := fun p => String.eqb p "src/lib" |}
   = ([Prompt "📂 Enter project folder path: ";
       Output (EvPrint [PyStr (NL +:+ "❌ Path does not exist!")])], SystemExit)).
Proof.
  split.
  - apply (proj1 (get_project_path_outcome
                    {| typed := None; path_exists := fun _ => true |})).
    reflexivity.
  - apply (proj2 (get_project_path_outcome
                    {| typed := Some " src\lib ";
                       path_exists := fun p => String.eqb p "src/lib" |})
             " src\lib ").
    reflexivity.
Defined.

Lemma list_ascii_of_string_app (a b : string) :
  list_ascii_of_string (a +:+ b) = list_ascii_of_string a ++ list_ascii_of_string b.
Proof.
  induction a as [|c a IHa]; [reflexivity|].
  rewrite string_app_cons. cbn. rewrite IHa. reflexivity.
Qed.

Lemma string_rev_snoc (a : string) (c : ascii) :
  string_rev (a +:+ String c "") = String c (string_rev a).
Proof.
  unfold string_rev. rewrite list_ascii_of_string_app, rev_app_distr. reflexivity.
Qed.

Lemma string_rev_involutive (s : string) : string_rev (string_rev s) = s.
Proof.
  unfold string_rev.
  rewrite list_ascii_of_string_of_list_ascii, rev_involutive.
  apply string_of_list_ascii_of_string.
Qed.

(** The double quote is no white space and starts or ends none. *)
Lemma strip_left_quote (flip : bool) (r : string) :
  let t2 := if flip then (fun a b => space2 b a) else space2 in
  let t3 := if flip then (fun a b c => space3 c b a) else space3 in
  strip_left space1 t2 t3 (String QUOTE r) = String QUOTE r.
Proof.
  destruct flip; cbv zeta; destruct r as [|b [|c r]]; cbn [strip_left];
    change (space1 QUOTE) with false; cbv iota; try reflexivity;
    unfold space2, space3;
    change (N_of_ascii QUOTE) with 34%N; cbn [N.eqb N.leb N.compare Pos.eqb Pos.compare
                                               Pos.compare_cont andb orb];
    rewrite ?andb_false_r, ?orb_false_r; cbn [andb orb]; reflexivity.
Qed.

Lemma strip_quoted (s : string) :
  strip (String QUOTE (s +:+ String QUOTE "")) = String QUOTE (s +:+ String QUOTE "").
Proof.
  unfold strip, lstrip, rstrip. rewrite (strip_left_quote false).
  change (String QUOTE (s +:+ String QUOTE ""))
    with (String QUOTE s +:+ String QUOTE "") at 1.
  rewrite string_rev_snoc, (strip_left_quote true), <- string_rev_snoc.
  apply string_rev_involutive.
Qed.

Lemma substring_prefix (a b : string) :
  String.substring 0 (String.length a) (a +:+ b) = a.
Proof.
  induction a as [|c a IHa]; [destruct b; reflexivity|].
  rewrite string_app_cons. cbn [String.length String.substring].
  rewrite IHa. reflexivity.
Qed.

(** X13: a path pasted between double quotes loses exactly the quotes.
    When the line typed is a double quote, any text and a double quote,
    the path that is checked and returned is that text with each backslash
    turned into a slash; spaces inside the quotes are kept. *)
Theorem quoted_path_unquoted (c : console) (s : string) :
  typed c = Some (String QUOTE (s +:+ String QUOTE "")) ->
  get_project_path c
  = if path_exists c (replace BACKSLASH "/" s)
    then ([Prompt "📂 Enter project folder path: "],
          Returned (replace BACKSLASH "/" s))
    else ([Prompt "📂 Enter project folder path: ";
           Output (EvPrint [PyStr (NL +:+ "❌ Path does not exist!")])],
          SystemExit).
Proof.
  intros Ht. unfold get_project_path. rewrite Ht, strip_quoted. cbv zeta.
  assert (Hs : startswith (String QUOTE (s +:+ String QUOTE "")) (String QUOTE "")
               = true) by (destruct s; reflexivity).
  assert (He : endswith (String QUOTE (s +:+ String QUOTE "")) (String QUOTE "")
               = true) by (apply endswith_iff; exists (String QUOTE s); reflexivity).
  rewrite Hs, He. cbn [andb].
  assert (Hsl : slice_1_m1 (String QUOTE (s +:+ String QUOTE "")) = s).
  { unfold slice_1_m1. cbn [String.length]. rewrite string_length_app.
    cbn [String.length String.substring].
    replace (S (String.length s + 1) - 2) with (String.length s) by lia.
    apply substring_prefix. }
  rewrite Hsl. reflexivity.
Qed.

Lemma quoted_path_unquoted_witness :
  let line := String QUOTE ("C:" +:+ String BACKSLASH "my proj" +:+ String QUOTE "") in
  get_project_path {| typed := Some line;
                      path_exists := fun p => String.eqb p "C:/my proj" |}
  = ([Prompt "📂 Enter project folder path: "], Returned "C:/my proj").
Proof.
  intros line.
  exact (quoted_path_unquoted {| typed := Some line;
                                 path_exists := fun p => String.eqb p "C:/my proj" |}
           ("C:" +:+ String BACKSLASH "my proj") eq_refl).
Defined.

Lemma get_project_path_shape (c : console) :
  (exists p, get_project_path c
             = ([Prompt "📂 Enter project folder path: "], Returned p)) \/
  get_project_path c
  = ([Prompt "📂 Enter project folder path: ";
      Output (EvPrint [PyStr (NL +:+ "❌ Path does not exist!")])], SystemExit) \/
  get_project_path c
  = ([Prompt "📂 Enter project folder path: "], Raised EOFError).
Proof.
  unfold get_project_path. destruct (typed c); [|right; right; reflexivity].
  cbv zeta.
  destruct (path_exists c _);
    [left; eexists; reflexivity | right; left; reflexivity].
Qed.

(** X14: the program is [main] at the path that [get_project_path]
    returned: its outcome is that of [main] there and the events of its
    scan are the trace of [main], with the prompt shown between the banner
    and the rest.  When [get_project_path] exits instead, the program
    exits too, and no function of the scanner has been called; the same
    holds when an exception comes out of [get_project_path]. *)
Theorem program_runs_main w (c : console) :
  (forall p, snd (get_project_path c) = Returned p ->
     snd (program w c) = Returned (result (main w p)) /\
     scan_events (fst (program w c)) = trace (main w p) /\
     exists t, fst (program w c)
               = Output (EvPrint [PyStr (NL +:+ "===== 🔍 SMART PROJECT INSPECTOR ====="
                                           +:+ NL)])
                 :: Prompt "📂 Enter project folder path: " :: t) /\
  (snd (get_project_path c) = SystemExit ->
     snd (program w c) = SystemExit /\
     forall f x, Output (EvCall f x) ∉ fst (program w c)) /\
  (forall e, snd (get_project_path c) = Raised e ->
     snd (program w c) = Raised e /\
     forall f x, Output (EvCall f x) ∉ fst (program w c)).
Proof.
  assert (Hmain : forall p,
    main w p = (EvPrint [PyStr (NL +:+ "===== 🔍 SMART PROJECT INSPECTOR =====" +:+ NL)]
                :: trace (scan w p), result (scan w p))).
  { intros p. unfold main. fold (scan w p). destruct (scan w p). reflexivity. }
  assert (Hmap : forall t, scan_events (map Output t) = t).
  { induction t as [|e t IHt]; [reflexivity|]. cbn. f_equal. exact IHt. }
  unfold program.
  destruct (get_project_path_shape c) as [(q & ->)|[-> | ->]]; cbn [fst snd].
  - split; [|split; discriminate]. intros p Hp. injection Hp as <-.
    rewrite Hmain. cbn [result trace fst snd].
    split; [reflexivity|]. split; [|eexists; reflexivity].
    cbn. f_equal. apply Hmap.
  - split; [discriminate|]. split; [|discriminate]. intros _. split; [reflexivity|].
    intros f x Hin. repeat (apply elem_of_cons in Hin as [Hin|Hin]; [discriminate Hin|]).
    inversion Hin.
  - split; [discriminate|]. split; [discriminate|]. intros e He.
    injection He as <-. split; [reflexivity|].
    intros f x Hin. repeat (apply elem_of_cons in Hin as [Hin|Hin]; [discriminate Hin|]).
    inversion Hin.
Qed.

Lemma program_runs_main_witness :
  snd (program Fixture.machine
         {| typed := Some " proj "; path_exists := fun _ => true |})
  = Returned (result (main Fixture.machine "proj")) /\
  snd (program Fixture.machine
         {| typed := Some "nowhere"; path_exists := fun _ => false |})
  = SystemExit /\
  snd (program Fixture.machine {| typed := None; path_exists := fun _ => true |})
  = Raised EOFError.
Proof.
  split; [|split].
  - apply (program_runs_main Fixture.machine
             {| typed := Some " proj "; path_exists := fun _ => true |}).
    reflexivity.
  - apply (program_runs_main Fixture.machine
             {| typed := Some "nowhere"; path_exists := fun _ => false |}).
    reflexivity.
  - apply (program_runs_main Fixture.machine
             {| typed := None; path_exists := fun _ => true |}).
    reflexivity.
Defined.

(** ** Failures of the analysis of a file *)

(** X15: the analysis of a file raises in four cases only: the compiler
    call raises something other than [PyCompileError] (the same exception
    comes out); the compile error is no syntax error, so that reading its
    line number raises [AttributeError]; the file compiles but cannot be
    opened for the name analysis; or the file compiles, opens and parses,
    and its tree is nested deeper than the recursion limit lets the
    visitor go, where the traversal, which stands outside the [try],
    raises [RecursionError].  A file that compiles but that [ast.parse]
    rejects raises nothing and gets no diagnostic. *)
Theorem analyze_file_raises w path e :
  (result (analyze_file w path) = Raise e <->
   py_compile w path = CompileRaised e \/
   (e = AttributeError /\ exists cls, py_compile w path = PyCompileError (OtherError cls)) \/
   (py_compile w path = Compiled /\ open_read w path = inr e) \/
   (e = RecursionError /\ py_compile w path = Compiled /\
    exists bs tree,
      open_read w path = inl bs /\
      ast_parse w (translate_newlines (decode_utf8_ignore bs)) = Some tree /\
      recursion_exceeded w tree = true)) /\
  (forall bs, py_compile w path = Compiled -> open_read w path = inl bs ->
     ast_parse w (translate_newlines (decode_utf8_ignore bs)) = None ->
     result (analyze_file w path) = Ok []).
Proof.
  rewrite analyze_file_eq, check_syntax_result, find_undefined_names_result. split.
  - destruct (py_compile w path) as [|[lineno msg|cls]|e'] eqn:Ec; cbn.
    + destruct (open_read w path) as [bs|e'] eqn:Eo.
      * destruct (ast_parse w _) as [tree|] eqn:Ep.
        -- destruct (recursion_exceeded w tree) eqn:Er; cbn.
           ++ split.
              ** intros H. injection H as <-. do 3 right.
                 split; [reflexivity|]. split; [reflexivity|]. eauto.
              ** intros [H|[(_ & ? & H)|[(_ & H)|(-> & _)]]];
                   try discriminate H. reflexivity.
           ++ split; [discriminate|].
              intros [H|[(_ & ? & H)|[(_ & H)|(_ & _ & bs' & tree' & Hb & Ht & Hr)]]];
                try discriminate H.
              injection Hb as <-. rewrite Ep in Ht. injection Ht as <-.
              rewrite Er in Hr. discriminate Hr.
        -- split; [discriminate|].
           intros [H|[(_ & ? & H)|[(_ & H)|(_ & _ & bs' & tree' & Hb & Ht & _)]]];
             try discriminate H.
           injection Hb as <-. rewrite Ep in Ht. discriminate Ht.
      * split.
        -- intros H. injection H as ->. right; right; left. split; reflexivity.
        -- intros [H|[(_ & ? & H)|[(_ & H)|(_ & _ & bs' & tree' & Hb & _)]]];
             try discriminate H; try discriminate Hb.
           injection H as ->. reflexivity.
    + split; [discriminate|].
      intros [H|[(_ & ? & H)|[(H & _)|(_ & H & _)]]]; discriminate H.
    + split.
      * intros H. injection H as <-. right; left. split; [reflexivity | eauto].
      * intros [H|[(-> & _)|[(H & _)|(_ & H & _)]]]; try discriminate H. reflexivity.
    + split.
      * intros H. injection H as ->. left. reflexivity.
      * intros [H|[(_ & ? & H)|[(H & _)|(_ & H & _)]]]; try discriminate H.
        injection H as ->. reflexivity.
  - intros bs -> -> ->. reflexivity.
Qed.

Lemma analyze_file_raises_witness :
  result (analyze_file Fixture.deep_machine "deep/sum.py") = Raise RecursionError /\
  result (analyze_file Fixture.machine "missing.py") = Raise FileNotFoundError.
Proof.
  split.
  - apply (proj1 (analyze_file_raises Fixture.deep_machine "deep/sum.py"
                    RecursionError)).
    do 3 right. split; [reflexivity|]. split; [reflexivity|].
    exists (String.list_byte_of_string Fixture.deep_src), Fixture.deep_tree.
    split; [reflexivity|]. split; vm_compute; reflexivity.
  - apply (proj1 (analyze_file_raises Fixture.machine "missing.py"
                    FileNotFoundError)).
    left. reflexivity.
Defined.

Lemma universal_newlines_witness :
  translate_newlines ("a" +:+ NL +:+ "b") = "a" +:+ NL +:+ "b".
Proof.
  exact (proj1 (proj2 (proj2 (universal_newlines ("a" +:+ NL +:+ "b")))) eq_refl).
Defined.

Lemma import_binds_first_segment_witness :
  exists rest,
    "os.path" = first_segment "os.path" +:+ rest /\
    has_char "." (first_segment "os.path") = false /\
    (rest = "" \/ exists r, rest = String "." r).
Proof.
  apply (proj2 (proj2 (import_binds_first_segment
                         [mk_alias "os.path" (Some "osp")] no_names))
           (mk_alias "os.path" (Some "osp"))).
  left.
Defined.
